(** * Refresh-token lifecycle of my-api-express

    A shallow embedding of the refresh-token code path of the repository:

    - [src/db/schema/auth/refresh_tokens.ts]   the table and its constraints
    - [src/db/queries/refresh-token.queries.ts] the five queries on it
    - [src/modules/auth/auth.repository.ts]     thin repository wrappers
    - [src/modules/auth/auth.service.ts]        login / refreshTokens / logout
    - [src/modules/auth/auth.controller.ts]     cookie guards of the handlers
    - [src/utils/auth.ts]                       expiry helpers

    Asynchronous code is modelled sequentially (every call is awaited in the
    source).  A request runs in a state-and-exception monad over the [World]:
    the rows of [auth.refresh_tokens], a journal of the write statements sent
    to the database, and the read positions of three oracles standing for
    [new Date()], [crypto.randomBytes(32)] and Postgres' [gen_random_uuid()].
    A thrown exception keeps the state reached so far: the source opens no
    transaction, so writes made before a [throw] stay in the database. *)

From Stdlib Require Import ZArith List String Bool Lia Arith.
Import ListNotations.

Local Open Scope string_scope.
Local Open Scope Z_scope.

Set Implicit Arguments.

(** ** JavaScript values *)

(** A [Date] is its epoch value in milliseconds; [>] and [<] on dates compare
    these values. *)
Definition Date := Z.

(** [x || d] on a [string | null | undefined]: the empty string is falsy. *)
Definition truthy (o : option string) : bool :=
  match o with
  | Some s => negb (String.eqb s EmptyString)
  | None => false
  end.

Definition or_else (o : option string) (d : string) : string :=
  match o with
  | Some s => if String.eqb s EmptyString then d else s
  | None => d
  end.

Definition or_null (o : option string) : option string :=
  if truthy o then o else None.

Definition isSome {A : Type} (o : option A) : bool :=
  match o with Some _ => true | None => false end.

Definition option_eqb {A : Type} (eqb : A -> A -> bool) (x y : option A) : bool :=
  match x, y with
  | Some a, Some b => eqb a b
  | None, None => true
  | _, _ => false
  end.

(** ** The table [auth.refresh_tokens] (schema/auth/refresh_tokens.ts) *)

(** [RefreshToken = typeof refreshTokens.$inferSelect]. *)
Record RefreshToken := mkRefreshToken {
  id : string;                        (* uuid, primary key, defaultRandom() *)
  userId : string;                    (* uuid, not null *)
  tokenHash : string;                 (* varchar(255), not null, unique index *)
  expiresAt : Date;                   (* timestamptz, not null *)
  revokedAt : option Date;            (* timestamptz, nullable *)
  replacedByToken : option string;    (* uuid, nullable *)
  createdAt : Date;                   (* timestamptz, defaultNow(), not null *)
  userAgent : option string;          (* varchar(500), nullable *)
  ipAddress : option string           (* varchar(45), nullable *)
}.

(** The columns that [createRefreshToken] supplies in [.values({...})]; the
    other columns of [NewRefreshToken] take their defaults. *)
Record Values := mkValues {
  v_userId : string;
  v_tokenHash : string;
  v_expiresAt : Date;
  v_userAgent : option string;
  v_ipAddress : option string
}.

(** Conditions built with drizzle's [eq], [isNull], [lt] and [and] on the
    columns of the table. *)
Inductive Cond :=
| eq_id (v : string)
| eq_tokenHash (v : string)
| eq_userId (v : string)
| isNull_revokedAt
| lt_expiresAt (v : Date)
| and (a b : Cond).

Fixpoint holds (c : Cond) (r : RefreshToken) : bool :=
  match c with
  | eq_id v => String.eqb (id r) v
  | eq_tokenHash v => String.eqb (tokenHash r) v
  | eq_userId v => String.eqb (userId r) v
  | isNull_revokedAt => negb (isSome (revokedAt r))
  | lt_expiresAt v => Z.ltb (expiresAt r) v
  | and a b => holds a r && holds b r
  end.

(** The object passed to [.set({...})]: a column that is not mentioned is
    [None]; a mentioned column carries the value to write ([null] included). *)
Record SetClause := mkSet {
  set_revokedAt : option (option Date);
  set_replacedByToken : option (option string)
}.

Definition assign (s : SetClause) (r : RefreshToken) : RefreshToken :=
  {| id := id r;
     userId := userId r;
     tokenHash := tokenHash r;
     expiresAt := expiresAt r;
     revokedAt := match set_revokedAt s with Some v => v | None => revokedAt r end;
     replacedByToken :=
       match set_replacedByToken s with Some v => v | None => replacedByToken r end;
     createdAt := createdAt r;
     userAgent := userAgent r;
     ipAddress := ipAddress r |}.

(** The write statements the queries send. *)
Inductive Statement :=
| INSERT (v : Values)
| UPDATE (s : SetClause) (w : Cond)
| DELETE (w : Cond).

(** What Postgres answers when a constraint of the table rejects a row. *)
Inductive PgFault :=
| unique_violation (constraint : string)
| string_data_right_truncation.

(** ** Exceptions *)

(** [config/errors.ts] is referenced by key only; the keys used on the
    refresh-token path are kept symbolic. *)
Module ERROR_MESSAGES.
Inductive key :=
| AUTH_REFRESH_TOKEN_NOT_FOUND
| AUTH_REFRESH_TOKEN_REVOKED
| AUTH_REFRESH_TOKEN_EXPIRED
| AUTH_PROFILE_NOT_FOUND
| AUTH_INVALID_CREDENTIALS
| USER_NOT_FOUND.
End ERROR_MESSAGES.

Module ERROR_CODES.
Inductive key :=
| AUTH_REFRESH_TOKEN_NOT_FOUND
| AUTH_REFRESH_TOKEN_REVOKED
| AUTH_REFRESH_TOKEN_EXPIRED
| AUTH_INVALID_CREDENTIALS
| USER_NOT_FOUND.
End ERROR_CODES.

Inductive Exn :=
| AppError (message : ERROR_MESSAGES.key) (statusCode : Z) (code : ERROR_CODES.key)
| Error (message : string)
| DatabaseError (fault : PgFault).

(** An [AppError] is the application's typed failure; everything else reaches
    the error middleware as an unexpected fault. *)
Definition typed (e : Exn) : bool :=
  match e with AppError _ _ _ => true | _ => false end.

(** ** The world and the request monad *)

Record World := mkWorld {
  refresh_tokens : list RefreshToken;   (* rows, in insertion order *)
  journal : list Statement;             (* write statements sent so far *)
  clock : nat;                          (* reads of the time oracle *)
  entropy : nat;                        (* reads of the random-bytes oracle *)
  uuids : nat                           (* reads of the uuid oracle *)
}.

Inductive Result (A : Type) :=
| Ok (a : A)
| Throw (e : Exn).
Arguments Ok {A} a.
Arguments Throw {A} e.

Definition M (A : Type) := World -> Result A * World.

Definition ret {A : Type} (a : A) : M A := fun w => (Ok a, w).

Definition throw {A : Type} (e : Exn) : M A := fun w => (Throw e, w).

Definition bind {A B : Type} (m : M A) (k : A -> M B) : M B :=
  fun w =>
    match m w with
    | (Ok a, w') => k a w'
    | (Throw e, w') => (Throw e, w')
    end.

Declare Scope request_scope.
Delimit Scope request_scope with request.
Notation "x <- m ;; k" := (bind m (fun x => k))
  (at level 61, m at next level, right associativity) : request_scope.
Notation "m ;; k" := (bind m (fun _ => k))
  (at level 61, right associativity) : request_scope.
Local Open Scope request_scope.

(** ** Users and tokens *)

(** The columns of [auth.users] that the service reads. *)
Module Users.
Record t := mk {
  id : string;
  email : string;
  role : option string
}.
End Users.

(** The claims handed to [generateToken]. *)
Record TokenPayload := mkPayload {
  sub : string;
  role : string
}.

(** Code outside the modelled files, taken as parameters: the hash primitive,
    the JWT signer, the login, user and profile queries, the configured
    refresh lifetime and the three oracles.  The profile row is passed
    through untouched, so its type is left open. *)
Record Env (Profile : Type) := mkEnv {
  sha256_hex : string -> string;
  generateToken : TokenPayload -> string;                 (* utils/jwt.ts *)
  loginQuery : string -> string -> Exn + (Users.t * Profile);
                                                          (* db/queries/auth.queries.ts *)
  getUserById : string -> option Users.t;                 (* db/queries/user.queries.ts *)
  getProfileById : string -> option Profile;              (* db/queries/profile.queries.ts *)
  REFRESH_TOKEN_EXPIRATION_MINUTES : Z;                   (* config/constants.ts *)
  now_at : nat -> Date;                                   (* the k-th reading of the clock *)
  randomBytes32_base64url : nat -> string;                (* the k-th random secret *)
  gen_random_uuid : nat -> string                         (* the k-th generated uuid *)
}.

Record Session (Profile : Type) := mkSession {
  user : Users.t;
  profile : Profile;
  access_token : string;
  refresh_token : string
}.

Section Queries.

Variable Profile : Type.
Variable env : Env Profile.

(** *** Oracles *)

(** [new Date()], and [now()] for the [created_at] default. *)
Definition new_Date : M Date :=
  fun w =>
    (Ok (now_at env (clock w)),
     mkWorld (refresh_tokens w) (journal w) (S (clock w)) (entropy w) (uuids w)).

Definition randomBytes : M string :=
  fun w =>
    (Ok (randomBytes32_base64url env (entropy w)),
     mkWorld (refresh_tokens w) (journal w) (clock w) (S (entropy w)) (uuids w)).

Definition defaultRandom : M string :=
  fun w =>
    (Ok (gen_random_uuid env (uuids w)),
     mkWorld (refresh_tokens w) (journal w) (clock w) (entropy w) (S (uuids w))).

(** *** The database *)

Definition rows : M (list RefreshToken) := fun w => (Ok (refresh_tokens w), w).

(** Sends a write statement: it is journalled and the rows are replaced. *)
Definition commit (st : Statement) (rs : list RefreshToken) : M unit :=
  fun w => (Ok tt, mkWorld rs (journal w ++ [st]) (clock w) (entropy w) (uuids w)).

(** Sends a write statement that the database rejects. *)
Definition reject {A : Type} (st : Statement) (f : PgFault) : M A :=
  fun w =>
    (Throw (DatabaseError f),
     mkWorld (refresh_tokens w) (journal w ++ [st]) (clock w) (entropy w) (uuids w)).

Definition too_long (n : nat) (o : option string) : bool :=
  match o with
  | Some s => Nat.ltb n (String.length s)
  | None => false
  end.

(** The constraints of the table, checked for a candidate row:
    the varchar lengths, the primary key and the unique index on
    [token_hash].  The foreign key to [auth.users] is not checked here: that
    table belongs to the collaborators of [Env]. *)
Definition violation (r : RefreshToken) (rs : list RefreshToken) : option PgFault :=
  if too_long 255 (Some (tokenHash r)) || too_long 500 (userAgent r)
     || too_long 45 (ipAddress r)
  then Some string_data_right_truncation
  else if existsb (fun x => String.eqb (id x) (id r)) rs
  then Some (unique_violation "refresh_tokens_pkey")
  else if existsb (fun x => String.eqb (tokenHash x) (tokenHash r)) rs
  then Some (unique_violation "idx_refresh_tokens_token_hash")
  else None.

(** [db.insert(refreshTokens).values(v).returning()] *)
Definition db_insert (v : Values) : M (list RefreshToken) :=
  uuid <- defaultRandom ;;
  created <- new_Date ;;
  rs <- rows ;;
  let r := {| id := uuid;
              userId := v_userId v;
              tokenHash := v_tokenHash v;
              expiresAt := v_expiresAt v;
              revokedAt := None;
              replacedByToken := None;
              createdAt := created;
              userAgent := v_userAgent v;
              ipAddress := v_ipAddress v |} in
  match violation r rs with
  | Some f => reject (INSERT v) f
  | None => commit (INSERT v) (rs ++ [r]) ;; ret [r]
  end.

(** [db.select().from(refreshTokens).where(c).limit(n)]; the rows are
    scanned in insertion order. *)
Definition db_select (c : Cond) (limit : nat) : M (list RefreshToken) :=
  rs <- rows ;;
  ret (firstn limit (filter (holds c) rs)).

(** [db.update(refreshTokens).set(s).where(c)] *)
Definition db_update (s : SetClause) (c : Cond) : M unit :=
  rs <- rows ;;
  commit (UPDATE s c) (map (fun r => if holds c r then assign s r else r) rs).

(** [db.delete(refreshTokens).where(c)] *)
Definition db_delete (c : Cond) : M unit :=
  rs <- rows ;;
  commit (DELETE c) (filter (fun r => negb (holds c r)) rs).

(** *** db/queries/refresh-token.queries.ts *)

Definition hashToken (token : string) : string := sha256_hex env token.

Definition generateRefreshToken : M string := randomBytes.

Definition createRefreshToken
    (token userId : string) (expiresAt : Date) (userAgent ipAddress : option string)
    : M RefreshToken :=
  let tokenHash := hashToken token in
  returned <- db_insert {| v_userId := userId;
                           v_tokenHash := tokenHash;
                           v_expiresAt := expiresAt;
                           v_userAgent := userAgent;
                           v_ipAddress := ipAddress |} ;;
  match returned with
  | [] => throw (Error "Failed to create refresh token")
  | newToken :: _ => ret newToken
  end.

Definition findRefreshTokenByHash (tokenHash : string) : M (option RefreshToken) :=
  selected <- db_select (and (eq_tokenHash tokenHash) isNull_revokedAt) 1 ;;
  ret (hd_error selected).

Definition revokeRefreshToken (tokenId : string) (replacedByTokenId : option string)
    : M unit :=
  now <- new_Date ;;
  db_update {| set_revokedAt := Some (Some now);
               set_replacedByToken := Some (or_null replacedByTokenId) |}
            (eq_id tokenId).

Definition revokeAllUserRefreshTokens (userId : string) : M unit :=
  now <- new_Date ;;
  db_update {| set_revokedAt := Some (Some now);
               set_replacedByToken := None |}
            (and (eq_userId userId) isNull_revokedAt).

Definition cleanupExpiredTokens : M unit :=
  now <- new_Date ;;
  db_delete (lt_expiresAt now).

(** *** utils/auth.ts *)

(** [now.setMinutes(now.getMinutes() + REFRESH_TOKEN_EXPIRATION_MINUTES)],
    in a time zone without offset changes: a minute is 60000 ms. *)
Definition getRefreshTokenExpirationDate : M Date :=
  now <- new_Date ;;
  ret (now + REFRESH_TOKEN_EXPIRATION_MINUTES env * 60000).

End Queries.

(** *** modules/auth/auth.repository.ts *)

Module AuthRepository.
Section Methods.

Variable Profile : Type.
Variable env : Env Profile.

Definition login (email password : string) : M (Users.t * Profile) :=
  match loginQuery env email password with
  | inl e => throw e
  | inr up => ret up
  end.

Definition createRefreshToken
    (token userId : string) (expiresAt : Date) (userAgent ipAddress : option string)
    : M RefreshToken :=
  createRefreshToken env token userId expiresAt userAgent ipAddress.

Definition findRefreshTokenByToken (token : string) : M (option RefreshToken) :=
  let tokenHash := hashToken env token in
  findRefreshTokenByHash tokenHash.

Definition revokeRefreshToken (tokenId : string) (replacedByTokenId : option string)
    : M unit :=
  revokeRefreshToken env tokenId replacedByTokenId.

Definition revokeAllUserTokens (userId : string) : M unit :=
  revokeAllUserRefreshTokens env userId.

End Methods.
End AuthRepository.

(** *** modules/auth/auth.service.ts *)

Module AuthService.
Section Methods.

Variable Profile : Type.
Variable env : Env Profile.

Definition login (email password : string) (userAgent ipAddress : option string)
    : M (Session Profile) :=
  up <- AuthRepository.login env email password ;;
  let user := fst up in
  let profile := snd up in
  let access_token :=
    generateToken env {| sub := Users.id user;
                         role := or_else (Users.role user) "user" |} in
  refresh_token <- generateRefreshToken env ;;
  expiresAt <- getRefreshTokenExpirationDate env ;;
  AuthRepository.createRefreshToken env refresh_token (Users.id user) expiresAt
                                    userAgent ipAddress ;;
  ret {| user := user;
         profile := profile;
         access_token := access_token;
         refresh_token := refresh_token |}.

Definition refreshTokens (refreshToken : string) (userAgent ipAddress : option string)
    : M (Session Profile) :=
  found <- AuthRepository.findRefreshTokenByToken env refreshToken ;;
  match found with
  | None =>
      throw (AppError ERROR_MESSAGES.AUTH_REFRESH_TOKEN_NOT_FOUND 401
                      ERROR_CODES.AUTH_REFRESH_TOKEN_NOT_FOUND)
  | Some storedToken =>
      if isSome (revokedAt storedToken) then
        AuthRepository.revokeAllUserTokens env (userId storedToken) ;;
        throw (AppError ERROR_MESSAGES.AUTH_REFRESH_TOKEN_REVOKED 401
                        ERROR_CODES.AUTH_REFRESH_TOKEN_REVOKED)
      else
        now <- new_Date env ;;
        if Z.gtb now (expiresAt storedToken) then
          throw (AppError ERROR_MESSAGES.AUTH_REFRESH_TOKEN_EXPIRED 401
                          ERROR_CODES.AUTH_REFRESH_TOKEN_EXPIRED)
        else
          match getUserById env (userId storedToken) with
          | None =>
              throw (AppError ERROR_MESSAGES.USER_NOT_FOUND 404
                              ERROR_CODES.USER_NOT_FOUND)
          | Some user =>
              match getProfileById env (Users.id user) with
              | None =>
                  throw (AppError ERROR_MESSAGES.AUTH_PROFILE_NOT_FOUND 404
                                  ERROR_CODES.AUTH_INVALID_CREDENTIALS)
              | Some profile =>
                  let new_access_token :=
                    generateToken env {| sub := Users.id user;
                                         role := or_else (Users.role user) "user" |} in
                  new_refresh_token <- generateRefreshToken env ;;
                  expiresAt <- getRefreshTokenExpirationDate env ;;
                  newTokenRecord <-
                    AuthRepository.createRefreshToken
                      env new_refresh_token (Users.id user) expiresAt
                      userAgent ipAddress ;;
                  AuthRepository.revokeRefreshToken env
                    (id storedToken) (Some (id newTokenRecord)) ;;
                  ret {| user := user;
                         profile := profile;
                         access_token := new_access_token;
                         refresh_token := new_refresh_token |}
              end
          end
  end.

Definition logout (refreshToken : string) : M unit :=
  found <- AuthRepository.findRefreshTokenByToken env refreshToken ;;
  match found with
  | Some storedToken =>
      if negb (isSome (revokedAt storedToken)) then
        AuthRepository.revokeRefreshToken env (id storedToken) None
      else ret tt
  | None => ret tt
  end.

End Methods.
End AuthService.

(** *** modules/auth/auth.controller.ts *)

(** The handlers' guards on the [refresh_token] cookie.  Setting and clearing
    the response cookies and the JSON body are left out: they do not touch
    the table. *)
Module AuthController.
Section Handlers.

Variable Profile : Type.
Variable env : Env Profile.

Definition refresh (refresh_token : option string) (userAgent ipAddress : option string)
    : M (Session Profile) :=
  match refresh_token with
  | Some refreshToken =>
      if negb (truthy refresh_token) then
        throw (AppError ERROR_MESSAGES.AUTH_REFRESH_TOKEN_NOT_FOUND 401
                        ERROR_CODES.AUTH_REFRESH_TOKEN_NOT_FOUND)
      else AuthService.refreshTokens env refreshToken userAgent ipAddress
  | None =>
      throw (AppError ERROR_MESSAGES.AUTH_REFRESH_TOKEN_NOT_FOUND 401
                      ERROR_CODES.AUTH_REFRESH_TOKEN_NOT_FOUND)
  end.

Definition logout (refresh_token : option string) : M unit :=
  match refresh_token with
  | Some refreshToken =>
      if truthy refresh_token then AuthService.logout env refreshToken else ret tt
  | None => ret tt
  end.

End Handlers.
End AuthController.

(** ** A client that keeps rotating *)

(** [rotate n t]: [n] successive refresh calls, each presenting the secret the
    previous call returned, starting with [t]; the result is the last secret. *)
Fixpoint rotate (Profile : Type) (env : Env Profile) (n : nat) (refreshToken : string)
    (userAgent ipAddress : option string) : M string :=
  match n with
  | O => ret refreshToken
  | S k =>
      s <- AuthService.refreshTokens env refreshToken userAgent ipAddress ;;
      rotate env k (refresh_token s) userAgent ipAddress
  end.

(** Login followed by [n] rotations. *)
Definition session (Profile : Type) (env : Env Profile) (n : nat) (email password : string)
    (userAgent ipAddress : option string) : M string :=
  s <- AuthService.login env email password userAgent ipAddress ;;
  rotate env n (refresh_token s) userAgent ipAddress.

(** ** Predicates on the table *)

Definition active (r : RefreshToken) : bool := negb (isSome (revokedAt r)).

Definition active_of (owner : string) (rs : list RefreshToken) : list RefreshToken :=
  filter (fun r => String.eqb (userId r) owner && active r) rs.

(** The primary key and the unique index hold. *)
Definition well_formed (rs : list RefreshToken) : Prop :=
  NoDup (map id rs) /\ NoDup (map tokenHash rs).

(** A rotation chain: every record but the last is revoked and names its
    successor in [replacedByToken]; the last one is active. *)
Fixpoint rotation_chain (l : list RefreshToken) : bool :=
  match l with
  | [] => false
  | r :: tl =>
      match tl with
      | [] => active r
      | r' :: _ =>
          negb (active r)
          && option_eqb String.eqb (replacedByToken r) (Some (id r'))
          && rotation_chain tl
      end
  end.

(** ** A concrete environment for examples *)

Module Demo.

Fixpoint tally (n : nat) : string :=
  match n with
  | O => EmptyString
  | S k => "I" ++ tally k
  end.

Definition ann : Users.t :=
  {| Users.id := "u-ann"; Users.email := "ann@example.org"; Users.role := Some "admin" |}.

(** A user whose [role] column is null. *)
Definition bob : Users.t :=
  {| Users.id := "u-bob"; Users.email := "bob@example.org"; Users.role := None |}.

Definition env : Env unit :=
  {| sha256_hex := fun s => "#" ++ s;
     generateToken := fun p => sub p ++ ":" ++ role p;
     loginQuery := fun email password =>
       if String.eqb email "ann@example.org" then inr (ann, tt)
       else if String.eqb email "bob@example.org" then inr (bob, tt)
       else inl (AppError ERROR_MESSAGES.AUTH_INVALID_CREDENTIALS 401
                          ERROR_CODES.AUTH_INVALID_CREDENTIALS);
     getUserById := fun i =>
       if String.eqb i "u-ann" then Some ann
       else if String.eqb i "u-bob" then Some bob
       else None;
     getProfileById := fun i =>
       if String.eqb i "u-ann" then Some tt
       else if String.eqb i "u-bob" then Some tt
       else None;
     REFRESH_TOKEN_EXPIRATION_MINUTES := 10080;
     now_at := fun k => 1000 * Z.of_nat k;
     randomBytes32_base64url := fun k => "secret" ++ tally k;
     gen_random_uuid := fun k => "id" ++ tally k |}.

Definition empty : World :=
  {| refresh_tokens := []; journal := []; clock := 0; entropy := 0; uuids := 0 |}.

Definition row (i owner secret : string) (expires : Date) (revoked : option Date)
    (replaced : option string) : RefreshToken :=
  {| id := i; userId := owner; tokenHash := "#" ++ secret; expiresAt := expires;
     revokedAt := revoked; replacedByToken := replaced; createdAt := 0;
     userAgent := None; ipAddress := None |}.

Definition world (rs : list RefreshToken) (k : nat) : World :=
  {| refresh_tokens := rs; journal := []; clock := k; entropy := 0; uuids := 0 |}.

(** The world right after Ann logged in on an empty table. *)
Definition logged_in : World :=
  snd (AuthService.login env "ann@example.org" "pw" (Some "curl/8") (Some "10.0.0.7")
                         empty).

(** [a] was rotated into [b] long ago and has expired since; [b] is live. *)
Definition stale : World :=
  world [row "a" "u-ann" "old" 10 (Some 5) (Some "b");
         row "b" "u-ann" "new" 1000000 None None] 100.

(** A live record of a user that has no profile row. *)
Definition carl : Users.t :=
  {| Users.id := "u-carl"; Users.email := "carl@example.org"; Users.role := Some "user" |}.

Definition env_carl : Env unit :=
  {| sha256_hex := sha256_hex env;
     generateToken := generateToken env;
     loginQuery := loginQuery env;
     getUserById := fun i => if String.eqb i "u-carl" then Some carl else getUserById env i;
     getProfileById := getProfileById env;
     REFRESH_TOKEN_EXPIRATION_MINUTES := REFRESH_TOKEN_EXPIRATION_MINUTES env;
     now_at := now_at env;
     randomBytes32_base64url := randomBytes32_base64url env;
     gen_random_uuid := gen_random_uuid env |}.

Definition unprofiled : World :=
  world [row "c" "u-carl" "carl-secret" 1000000 None None] 1.

(** An unrevoked record whose validity has lapsed. *)
Definition lapsed : World :=
  world [row "a" "u-ann" "old" 10 None None] 100.

(** The digest of the next generated secret is already in the table; the
    digest of the one after it is not. *)
Definition colliding : World :=
  world [row "a" "u-bob" "secret" 1000000 None None] 1.

End Demo.

(** ** Failure tables *)

(** The three refresh failures the specification lists. *)
Definition token_state_failures : list Exn :=
  [ AppError ERROR_MESSAGES.AUTH_REFRESH_TOKEN_NOT_FOUND 401
             ERROR_CODES.AUTH_REFRESH_TOKEN_NOT_FOUND;
    AppError ERROR_MESSAGES.AUTH_REFRESH_TOKEN_REVOKED 401
             ERROR_CODES.AUTH_REFRESH_TOKEN_REVOKED;
    AppError ERROR_MESSAGES.AUTH_REFRESH_TOKEN_EXPIRED 401
             ERROR_CODES.AUTH_REFRESH_TOKEN_EXPIRED ].

(** The two further typed failures [refreshTokens] throws. *)
Definition lookup_failures : list Exn :=
  [ AppError ERROR_MESSAGES.USER_NOT_FOUND 404 ERROR_CODES.USER_NOT_FOUND;
    AppError ERROR_MESSAGES.AUTH_PROFILE_NOT_FOUND 404
             ERROR_CODES.AUTH_INVALID_CREDENTIALS ].

Definition statusCode_of (e : Exn) : option Z :=
  match e with
  | AppError _ c _ => Some c
  | _ => None
  end.

(** What the row matched by [eq_id tokenId] looks like after
    [revokeRefreshToken tokenId replacedByTokenId] ran at time [now]. *)
Definition revoked_image (now : Date) (replacedByTokenId : option string)
    (r r' : RefreshToken) : Prop :=
  id r' = id r /\ userId r' = userId r /\ tokenHash r' = tokenHash r
  /\ expiresAt r' = expiresAt r /\ createdAt r' = createdAt r
  /\ userAgent r' = userAgent r /\ ipAddress r' = ipAddress r
  /\ revokedAt r' = Some now
  /\ replacedByToken r' =
     match replacedByTokenId with
     | Some s => if String.eqb s EmptyString then None else Some s
     | None => None
     end.

(** ** Rows a request writes *)

(** The strings of a row fit their [varchar] columns. *)
Definition fits (r : RefreshToken) : Prop :=
  too_long 255 (Some (tokenHash r)) = false
  /\ too_long 500 (userAgent r) = false
  /\ too_long 45 (ipAddress r) = false.


(** The row that [createRefreshToken] inserts for [owner] when the expiry
    date is computed at clock reading [c] (the insert then takes reading
    [S c]), the secret is the [e]-th random one and the uuid the [u]-th. *)
Definition minted (Profile : Type) (env : Env Profile) (c e u : nat) (owner : string)
    (userAgent ipAddress : option string) : RefreshToken :=
  {| id := gen_random_uuid env u;
     userId := owner;
     tokenHash := hashToken env (randomBytes32_base64url env e);
     expiresAt := now_at env c + REFRESH_TOKEN_EXPIRATION_MINUTES env * 60000;
     revokedAt := None;
     replacedByToken := None;
     createdAt := now_at env (S c);
     userAgent := userAgent;
     ipAddress := ipAddress |}.

Definition values_of (r : RefreshToken) : Values :=
  {| v_userId := userId r;
     v_tokenHash := tokenHash r;
     v_expiresAt := expiresAt r;
     v_userAgent := userAgent r;
     v_ipAddress := ipAddress r |}.

(** The assignment of a revocation at [now] with the given
    [replacedByToken]. *)
Definition revocation (now : Date) (replacedBy : option string) : SetClause :=
  {| set_revokedAt := Some (Some now); set_replacedByToken := Some replacedBy |}.

(** The table after the row with id [tokenId] has been revoked. *)
Definition revoke_in (now : Date) (replacedBy : option string) (tokenId : string)
    (rs : list RefreshToken) : list RefreshToken :=
  map (fun r => if holds (eq_id tokenId) r then assign (revocation now replacedBy) r else r)
      rs.

(** ** The state of a rotating session *)

(** The uuids and the digests of the secrets that the oracles hand out from a
    given reading on. *)
Definition uuid_pool (Profile : Type) (env : Env Profile) (from n : nat) : list string :=
  map (gen_random_uuid env) (seq from n).

Definition digest_pool (Profile : Type) (env : Env Profile) (from n : nat) : list string :=
  map (fun k => hashToken env (randomBytes32_base64url env k)) (seq from n).

(** What holds after a login on [w0] and [k] rotations: the table is the one
    of [w0] followed by the [k] retired records [revs] and the live record
    [tip], whose secret is [tok]. *)
Record rotation_invariant (Profile : Type) (env : Env Profile) (w0 : World)
    (owner : string) (k : nat) (w : World) (tok : string)
    (revs : list RefreshToken) (tip : RefreshToken) : Prop := mkInvariant {
  inv_rows : refresh_tokens w = (refresh_tokens w0 ++ revs ++ [tip])%list;
  inv_length : List.length revs = k;
  inv_chain : rotation_chain (revs ++ [tip])%list = true;
  inv_tip_active : revokedAt tip = None;
  inv_tip_digest : tokenHash tip = hashToken env tok;
  inv_owner : forall r, In r (revs ++ [tip])%list -> userId r = owner;
  inv_live : now_at env (clock w) <= expiresAt tip;
  inv_ids :
    map id (refresh_tokens w) =
    (map id (refresh_tokens w0) ++ uuid_pool env (uuids w0) (S k))%list;
  inv_digests :
    map tokenHash (refresh_tokens w) =
    (map tokenHash (refresh_tokens w0) ++ digest_pool env (entropy w0) (S k))%list;
  inv_uuids : uuids w = (uuids w0 + S k)%nat;
  inv_entropy : entropy w = (entropy w0 + S k)%nat;
  inv_clock : (clock w0 <= clock w)%nat
}.

(** ** The e-mail pattern of the login handler *)

Import Ascii.

(** Regular expressions over characters, with character classes given by
    their membership test.  A character is a UTF-16 code unit below 256. *)
Inductive Regex :=
| Never
| Epsilon
| Class (p : Ascii.ascii -> bool)
| Cat (a b : Regex)
| Alt (a b : Regex)
| Star (a : Regex).

(** [a+] *)
Definition Plus (a : Regex) : Regex := Cat a (Star a).

(** The strings a pattern denotes. *)
Inductive matches : Regex -> string -> Prop :=
| matches_Epsilon : matches Epsilon EmptyString
| matches_Class p c : p c = true -> matches (Class p) (String c EmptyString)
| matches_Cat a b s t : matches a s -> matches b t -> matches (Cat a b) (s ++ t)
| matches_Alt_l a b s : matches a s -> matches (Alt a b) s
| matches_Alt_r a b s : matches b s -> matches (Alt a b) s
| matches_Star_nil a : matches (Star a) EmptyString
| matches_Star_more a s t :
    matches a s -> matches (Star a) t -> matches (Star a) (s ++ t).

(** Does the pattern accept the empty string? *)
Fixpoint nullable (r : Regex) : bool :=
  match r with
  | Never => false
  | Epsilon => true
  | Class _ => false
  | Cat a b => nullable a && nullable b
  | Alt a b => nullable a || nullable b
  | Star _ => true
  end.

(** The pattern of what may follow the character [c]. *)
Fixpoint after (c : Ascii.ascii) (r : Regex) : Regex :=
  match r with
  | Never => Never
  | Epsilon => Never
  | Class p => if p c then Epsilon else Never
  | Cat a b =>
      if nullable a then Alt (Cat (after c a) b) (after c b) else Cat (after c a) b
  | Alt a b => Alt (after c a) (after c b)
  | Star a => Cat (after c a) (Star a)
  end.

(** [/^r$/.test(s)]: the whole of [s] is matched by [r]. *)
Fixpoint test (r : Regex) (s : string) : bool :=
  match s with
  | EmptyString => nullable r
  | String c s' => test (after c r) s'
  end.

(** [\s] on code units below 256: tab, line feed, vertical tab, form feed,
    carriage return, space and no-break space. *)
Definition isSpace (c : Ascii.ascii) : bool :=
  let n := Ascii.nat_of_ascii c in
  (Nat.leb 9 n && Nat.leb n 13) || Nat.eqb n 32 || Nat.eqb n 160.

(** [[^\s@]] *)
Definition notSpaceNorAt (c : Ascii.ascii) : bool :=
  negb (isSpace c) && negb (Ascii.eqb c "@"%char).

(** [const emailRegex = /^[^\s@]+@[^\s@]+\.[^\s@]+$/] *)
Definition emailRegex : Regex :=
  Cat (Plus (Class notSpaceNorAt))
      (Cat (Class (Ascii.eqb "@"%char))
           (Cat (Plus (Class notSpaceNorAt))
                (Cat (Class (Ascii.eqb "."%char))
                     (Plus (Class notSpaceNorAt))))).

(** A non-empty run of characters other than white space and [@]. *)
Fixpoint all_chars (p : Ascii.ascii -> bool) (s : string) : bool :=
  match s with
  | EmptyString => true
  | String c s' => p c && all_chars p s'
  end.

Definition word (s : string) : Prop :=
  s <> EmptyString /\ all_chars notSpaceNorAt s = true.

(** ** The login handler (modules/auth/auth.controller.ts) *)

(** The two keys of [config/errors.ts] that only the handler uses. *)
Module VALIDATION_MESSAGES.
Inductive key :=
| AUTH_MISSING_EMAIL_PASSWORD
| AUTH_INVALID_EMAIL.
End VALIDATION_MESSAGES.

Module VALIDATION_CODES.
Inductive key :=
| AUTH_MISSING_CREDENTIALS
| AUTH_INVALID_EMAIL.
End VALIDATION_CODES.

(** What the handler ends with: the session whose tokens go into the two
    cookies, an [AppError] of the handler's own validation, or whatever the
    service threw. *)
Inductive Reply (A : Type) :=
| Served (a : A)
| Refused (message : VALIDATION_MESSAGES.key) (statusCode : Z)
          (code : VALIDATION_CODES.key)
| Raised (e : Exn).
Arguments Served {A} a.
Arguments Refused {A} message statusCode code.
Arguments Raised {A} e.

Module LoginHandler.
Section Handler.

Variable Profile : Type.
Variable env : Env Profile.

(** [email] and [password] are the two fields of [req.body], [user_agent] is
    [req.headers['user-agent']], [ip] is [req.ip] and [remoteAddress] is
    [req.socket.remoteAddress].  The cookies and the JSON body written after
    the service call are left out. *)
Definition login (email password : option string)
    (user_agent ip remoteAddress : option string)
    : World -> Reply (Session Profile) * World :=
  fun w =>
    if negb (truthy email) || negb (truthy password) then
      (Refused VALIDATION_MESSAGES.AUTH_MISSING_EMAIL_PASSWORD 400
               VALIDATION_CODES.AUTH_MISSING_CREDENTIALS, w)
    else
      match email, password with
      | Some email, Some password =>
          if negb (test emailRegex email) then
            (Refused VALIDATION_MESSAGES.AUTH_INVALID_EMAIL 400
                     VALIDATION_CODES.AUTH_INVALID_EMAIL, w)
          else
            let userAgent := user_agent in
            let ipAddress := if truthy ip then ip else remoteAddress in
            match AuthService.login env email password userAgent ipAddress w with
            | (Ok result, w') => (Served result, w')
            | (Throw e, w') => (Raised e, w')
            end
      | _, _ =>
          (Refused VALIDATION_MESSAGES.AUTH_MISSING_EMAIL_PASSWORD 400
                   VALIDATION_CODES.AUTH_MISSING_CREDENTIALS, w)
      end.

End Handler.
End LoginHandler.

(** ** Traffic *)

(** The requests that reach the table: the three endpoints, the periodic
    clean-up and the mass revocation of one user. *)
Inductive Request :=
| POST_login (email password : string) (userAgent ipAddress : option string)
| POST_refresh (refresh_token : option string) (userAgent ipAddress : option string)
| POST_logout (refresh_token : option string)
| Cleanup
| RevokeAll (userId : string).

(** The world after a request, whatever its outcome. *)
Definition handle (Profile : Type) (env : Env Profile) (q : Request) (w : World) : World :=
  match q with
  | POST_login email password ua ip => snd (AuthService.login env email password ua ip w)
  | POST_refresh cookie ua ip => snd (AuthController.refresh env cookie ua ip w)
  | POST_logout cookie => snd (AuthController.logout env cookie w)
  | Cleanup => snd (cleanupExpiredTokens env w)
  | RevokeAll userId => snd (revokeAllUserRefreshTokens env userId w)
  end.

Definition handle_all (Profile : Type) (env : Env Profile) (qs : list Request) (w : World)
    : World :=
  fold_left (fun w q => handle env q w) qs w.

Definition is_endpoint (q : Request) : bool :=
  match q with
  | POST_login _ _ _ _ | POST_refresh _ _ _ | POST_logout _ => true
  | Cleanup | RevokeAll _ => false
  end.

(** [r'] is the record [r] at a later time: the columns fixed at creation
    are the same, and a revocation is not undone. *)
Definition later_version (r r' : RefreshToken) : Prop :=
  id r' = id r /\ userId r' = userId r /\ tokenHash r' = tokenHash r
  /\ expiresAt r' = expiresAt r /\ createdAt r' = createdAt r
  /\ userAgent r' = userAgent r /\ ipAddress r' = ipAddress r
  /\ (revokedAt r <> None -> revokedAt r' <> None).

(** One step of the table: the rows are rewritten in place by [g], which
    keeps the fixed columns and undoes no revocation, and zero or one row
    that the table accepts is appended. *)
Definition step_shape (rs rs' : list RefreshToken) : Prop :=
  exists (g : RefreshToken -> RefreshToken) (added : list RefreshToken),
    rs' = (map g rs ++ added)%list
    /\ (forall r, later_version r (g r))
    /\ (added = [] \/ exists a, added = [a] /\ violation a rs = None).

(** Every [replacedByToken] names a row further down the table, that is, a
    record inserted later. *)
Fixpoint links_forward (rs : list RefreshToken) : Prop :=
  match rs with
  | [] => True
  | r :: tl =>
      (forall i, replacedByToken r = Some i -> In i (map id tl)) /\ links_forward tl
  end.

(** A write statement that creates one row or revokes the row with one id. *)
Definition point_write (st : Statement) : bool :=
  match st with
  | INSERT _ => true
  | UPDATE _ (eq_id _) => true
  | _ => false
  end.

(** * Properties *)

Unset Implicit Arguments.
Local Open Scope list_scope.

(** ** Reading the table *)

Section Reading.

Variable Profile : Type.
Variable env : Env Profile.

Lemma hd_error_firstn_filter (A : Type) (p : A -> bool) (l : list A) :
  hd_error (firstn 1 (filter p l)) = find p l.
Proof.
  induction l as [|a l IH]; simpl; [reflexivity|].
  destruct (p a); simpl; [reflexivity | exact IH].
Qed.

(** The lookup is a pure read: the first row with the digest of the presented
    secret and a null [revoked_at]. *)
Lemma findRefreshTokenByToken_eq (token : string) (w : World) :
  AuthRepository.findRefreshTokenByToken env token w =
  (Ok (find (holds (and (eq_tokenHash (hashToken env token)) isNull_revokedAt))
            (refresh_tokens w)), w).
Proof.
  unfold AuthRepository.findRefreshTokenByToken, findRefreshTokenByHash,
    db_select, rows, bind, ret.
  rewrite hd_error_firstn_filter. reflexivity.
Qed.

Lemma findRefreshTokenByToken_run (token : string) (w : World)
    (found : option RefreshToken) :
  fst (AuthRepository.findRefreshTokenByToken env token w) = Ok found ->
  AuthRepository.findRefreshTokenByToken env token w = (Ok found, w).
Proof.
  rewrite findRefreshTokenByToken_eq. cbn [fst]. intros H. rewrite H. reflexivity.
Qed.

Lemma found_is_active (token : string) (w : World) (stored : RefreshToken) :
  fst (AuthRepository.findRefreshTokenByToken env token w) = Ok (Some stored) ->
  In stored (refresh_tokens w) /\ tokenHash stored = hashToken env token
  /\ revokedAt stored = None.
Proof.
  rewrite findRefreshTokenByToken_eq. simpl. intros H.
  injection H as H. apply find_some in H. destruct H as [Hin Hp].
  simpl in Hp. apply andb_true_iff in Hp. destruct Hp as [Hh Hr].
  apply String.eqb_eq in Hh.
  destruct (revokedAt stored); [discriminate|]. auto.
Qed.

(** A secret all of whose records are revoked is not found. *)
Lemma revoked_is_not_found (token : string) (w : World) :
  (forall r, In r (refresh_tokens w) -> tokenHash r = hashToken env token ->
             revokedAt r <> None) ->
  AuthRepository.findRefreshTokenByToken env token w = (Ok None, w).
Proof.
  intros H. rewrite findRefreshTokenByToken_eq.
  destruct (find _ _) as [r|] eqn:E; [|reflexivity].
  exfalso. apply find_some in E. destruct E as [Hin Hp]. simpl in Hp.
  apply andb_true_iff in Hp. destruct Hp as [Hh Hr].
  apply String.eqb_eq in Hh. apply (H r Hin Hh).
  destruct (revokedAt r); [discriminate | reflexivity].
Qed.

End Reading.

(** ** The store-level revoke *)

(** C10. [revokeRefreshToken] never fails and rewrites the table row by row:
    a row whose id is not [tokenId] is left as it is; a row whose id is
    [tokenId] keeps every column except [revokedAt], which becomes the time
    of the call whatever it was before, and [replacedByToken], which becomes
    the given id, or null when none (or the empty string) is given. *)
Theorem C10_revoke_touches_two_columns
    (Profile : Type) (env : Env Profile)
    (tokenId : string) (replacedByTokenId : option string) (w : World) :
  exists w',
    revokeRefreshToken env tokenId replacedByTokenId w = (Ok tt, w')
    /\ Forall2
         (fun r r' =>
            if String.eqb (id r) tokenId
            then revoked_image (now_at env (clock w)) replacedByTokenId r r'
            else r' = r)
         (refresh_tokens w) (refresh_tokens w').
Proof.
  eexists. split.
  - unfold revokeRefreshToken, new_Date, db_update, rows, commit, bind. reflexivity.
  - cbn [refresh_tokens].
    induction (refresh_tokens w) as [|r rs IH]; simpl; constructor; [|exact IH].
    destruct (String.eqb (id r) tokenId); [|reflexivity].
    unfold revoked_image, assign, or_null, truthy; simpl.
    destruct replacedByTokenId as [s|]; simpl;
      [destruct (String.eqb s EmptyString); simpl|]; repeat split; reflexivity.
Qed.

(** ** Running a request step by step *)

Lemma bind_Ok (A B : Type) (m : M A) (k : A -> M B) (w w1 : World) (a : A) :
  m w = (Ok a, w1) -> bind m k w = k a w1.
Proof. intros H. unfold bind. rewrite H. reflexivity. Qed.

Ltac unfold_queries :=
  unfold AuthRepository.createRefreshToken, AuthRepository.revokeRefreshToken,
    AuthRepository.revokeAllUserTokens, AuthRepository.login,
    createRefreshToken, revokeRefreshToken, revokeAllUserRefreshTokens,
    generateRefreshToken, getRefreshTokenExpirationDate,
    db_insert, db_update, rows, commit, reject,
    new_Date, randomBytes, defaultRandom, bind, ret, throw.

Tactic Notation "unfold_queries" "in" hyp(H) :=
  unfold AuthRepository.createRefreshToken, AuthRepository.revokeRefreshToken,
    AuthRepository.revokeAllUserTokens, AuthRepository.login,
    createRefreshToken, revokeRefreshToken, revokeAllUserRefreshTokens,
    generateRefreshToken, getRefreshTokenExpirationDate,
    db_insert, db_update, rows, commit, reject,
    new_Date, randomBytes, defaultRandom, bind, ret, throw in H.

Section Refresh.

Variable Profile : Type.
Variable env : Env Profile.

(** [refreshTokens] after its lookup. *)
Lemma refreshTokens_found (token : string) (ua ip : option string) (w : World)
    (stored : RefreshToken) :
  fst (AuthRepository.findRefreshTokenByToken env token w) = Ok (Some stored) ->
  AuthService.refreshTokens env token ua ip w =
  (now <- new_Date env ;;
   if Z.gtb now (expiresAt stored) then
     throw (AppError ERROR_MESSAGES.AUTH_REFRESH_TOKEN_EXPIRED 401
                     ERROR_CODES.AUTH_REFRESH_TOKEN_EXPIRED)
   else
     match getUserById env (userId stored) with
     | None => throw (AppError ERROR_MESSAGES.USER_NOT_FOUND 404 ERROR_CODES.USER_NOT_FOUND)
     | Some user =>
         match getProfileById env (Users.id user) with
         | None => throw (AppError ERROR_MESSAGES.AUTH_PROFILE_NOT_FOUND 404
                                   ERROR_CODES.AUTH_INVALID_CREDENTIALS)
         | Some profile =>
             new_refresh_token <- generateRefreshToken env ;;
             expiresAt <- getRefreshTokenExpirationDate env ;;
             newTokenRecord <-
               AuthRepository.createRefreshToken env new_refresh_token (Users.id user)
                                                 expiresAt ua ip ;;
             AuthRepository.revokeRefreshToken env (id stored)
                                               (Some (id newTokenRecord)) ;;
             ret {| user := user;
                    profile := profile;
                    access_token :=
                      generateToken env {| sub := Users.id user;
                                           role := or_else (Users.role user) "user" |};
                    refresh_token := new_refresh_token |}
         end
     end) w.
Proof.
  intros H. destruct (found_is_active Profile env token w stored H) as (_ & _ & Hr).
  unfold AuthService.refreshTokens.
  erewrite bind_Ok by (apply findRefreshTokenByToken_run; exact H).
  cbv beta iota. rewrite Hr. reflexivity.
Qed.

Lemma refreshTokens_not_found (token : string) (ua ip : option string) (w : World) :
  fst (AuthRepository.findRefreshTokenByToken env token w) = Ok None ->
  AuthService.refreshTokens env token ua ip w =
  (Throw (AppError ERROR_MESSAGES.AUTH_REFRESH_TOKEN_NOT_FOUND 401
                   ERROR_CODES.AUTH_REFRESH_TOKEN_NOT_FOUND), w).
Proof.
  intros H. unfold AuthService.refreshTokens.
  erewrite bind_Ok by (apply findRefreshTokenByToken_run; exact H).
  reflexivity.
Qed.

Lemma find_cases (token : string) (w : World) :
  fst (AuthRepository.findRefreshTokenByToken env token w) = Ok None
  \/ exists stored,
       fst (AuthRepository.findRefreshTokenByToken env token w) = Ok (Some stored).
Proof.
  rewrite findRefreshTokenByToken_eq. simpl.
  destruct (find _ _) as [r|]; [right; exists r | left]; reflexivity.
Qed.

(** The reuse branch of [refreshTokens] is dead: a revoked record is never
    handed to it, so the cascade never runs and the revoked failure is never
    thrown. *)
Lemma refreshTokens_never_reports_reuse
    (token : string) (ua ip : option string) (w w' : World) (e : Exn) :
  AuthService.refreshTokens env token ua ip w = (Throw e, w') ->
  e <> AppError ERROR_MESSAGES.AUTH_REFRESH_TOKEN_REVOKED 401
                ERROR_CODES.AUTH_REFRESH_TOKEN_REVOKED.
Proof.
  destruct (find_cases token w) as [H | [stored H]].
  - rewrite (refreshTokens_not_found token ua ip w H). intros E. inversion E. discriminate.
  - rewrite (refreshTokens_found token ua ip w stored H). unfold_queries.
    destruct (Z.gtb _ _); [intros E; inversion E; discriminate|].
    destruct (getUserById _ _) as [u|]; [|intros E; inversion E; discriminate].
    destruct (getProfileById _ _) as [p|]; [|intros E; inversion E; discriminate].
    simpl. destruct (violation _ _); simpl; intros E; inversion E; discriminate.
Qed.

(** Presenting a secret whose records are all revoked changes nothing and is
    answered as an unknown secret. *)
Lemma refreshTokens_of_revoked (token : string) (ua ip : option string) (w : World) :
  (forall r, In r (refresh_tokens w) -> tokenHash r = hashToken env token ->
             revokedAt r <> None) ->
  AuthService.refreshTokens env token ua ip w =
  (Throw (AppError ERROR_MESSAGES.AUTH_REFRESH_TOKEN_NOT_FOUND 401
                   ERROR_CODES.AUTH_REFRESH_TOKEN_NOT_FOUND), w).
Proof.
  intros H. apply refreshTokens_not_found.
  rewrite (revoked_is_not_found Profile env token w H). reflexivity.
Qed.

End Refresh.

(** ** Expiry *)

(** C6. When the lookup returns a record (hence an unrevoked one) and the
    clock is past its [expiresAt], [refreshTokens] fails with the expired
    failure, status 401; no row changes, no write statement is sent, and so
    the owner's active records are the same as before. *)
Theorem C6_expired_is_rejected_without_cascade
    (Profile : Type) (env : Env Profile)
    (token : string) (ua ip : option string) (w : World) (stored : RefreshToken) :
  fst (AuthRepository.findRefreshTokenByToken env token w) = Ok (Some stored) ->
  now_at env (clock w) > expiresAt stored ->
  exists w',
    AuthService.refreshTokens env token ua ip w =
      (Throw (AppError ERROR_MESSAGES.AUTH_REFRESH_TOKEN_EXPIRED 401
                       ERROR_CODES.AUTH_REFRESH_TOKEN_EXPIRED), w')
    /\ refresh_tokens w' = refresh_tokens w
    /\ journal w' = journal w
    /\ active_of (userId stored) (refresh_tokens w') =
       active_of (userId stored) (refresh_tokens w).
Proof.
  intros Hfound Hlate.
  rewrite (refreshTokens_found Profile env token ua ip w stored Hfound).
  unfold_queries.
  apply Z.gtb_gt in Hlate. rewrite Hlate.
  eexists. repeat split.
Qed.

(** The premises of C6 hold for the lapsed record of [Demo.lapsed]. *)
Lemma C6_witness :
  exists w',
    AuthService.refreshTokens Demo.env "old" None None Demo.lapsed =
      (Throw (AppError ERROR_MESSAGES.AUTH_REFRESH_TOKEN_EXPIRED 401
                       ERROR_CODES.AUTH_REFRESH_TOKEN_EXPIRED), w')
    /\ refresh_tokens w' = refresh_tokens Demo.lapsed
    /\ journal w' = journal Demo.lapsed
    /\ active_of "u-ann" (refresh_tokens w') =
       active_of "u-ann" (refresh_tokens Demo.lapsed).
Proof.
  apply (C6_expired_is_rejected_without_cascade unit Demo.env "old" None None
           Demo.lapsed (Demo.row "a" "u-ann" "old" 10 None None)).
  - reflexivity.
  - reflexivity.
Defined.

(** ** Replay of a rotated secret *)

(** C1 (the code departs from the claim).  Ann logs in, rotates once, and the
    secret she first received is presented again.  The lookup filters on
    [revoked_at IS NULL], so the rotated record is not returned: the call
    fails as an unknown secret, no statement is sent, and the record issued
    by the rotation stays active. *)
Theorem C1_replayed_secret_is_answered_not_found :
  exists s1 w1 s2 w2,
    AuthService.login Demo.env "ann@example.org" "pw" None None Demo.empty = (Ok s1, w1)
    /\ AuthService.refreshTokens Demo.env (refresh_token s1) None None w1 = (Ok s2, w2)
    /\ AuthService.refreshTokens Demo.env (refresh_token s1) None None w2 =
         (Throw (AppError ERROR_MESSAGES.AUTH_REFRESH_TOKEN_NOT_FOUND 401
                          ERROR_CODES.AUTH_REFRESH_TOKEN_NOT_FOUND), w2)
    /\ map id (active_of "u-ann" (refresh_tokens w2)) = ["idI"].
Proof.
  eexists. eexists. eexists. eexists.
  split; [vm_compute; reflexivity|].
  split; [vm_compute; reflexivity|].
  split; vm_compute; reflexivity.
Qed.

(** C2 (the code departs from the claim).  Record [a] is both revoked and
    expired, record [b] of the same owner is live.  Presenting the secret of
    [a] fails as an unknown secret, neither as reuse nor as expiry; nothing is
    written and [b] stays active. *)
Theorem C2_expired_and_rotated_is_answered_not_found :
  AuthService.refreshTokens Demo.env "old" None None Demo.stale =
    (Throw (AppError ERROR_MESSAGES.AUTH_REFRESH_TOKEN_NOT_FOUND 401
                     ERROR_CODES.AUTH_REFRESH_TOKEN_NOT_FOUND), Demo.stale)
  /\ map id (active_of "u-ann" (refresh_tokens Demo.stale)) = ["b"].
Proof. split; vm_compute; reflexivity. Qed.

(** ** The failures of refresh *)

(** C3, as the specification states it, fails: a live record whose user has
    no profile row makes [refreshTokens] throw a typed failure with status
    404 that is none of the three token-state failures. *)
Lemma C3_profile_not_found_is_a_fourth_failure :
  exists e w',
    AuthService.refreshTokens Demo.env_carl "carl-secret" None None Demo.unprofiled =
      (Throw e, w')
    /\ typed e = true
    /\ statusCode_of e = Some 404
    /\ ~ In e token_state_failures.
Proof.
  eexists. eexists. split; [vm_compute; reflexivity|].
  split; [reflexivity|]. split; [reflexivity|].
  simpl. intros [H|[H|[H|[]]]]; discriminate H.
Qed.

(** C3, amended.  Whenever [refreshTokens] fails, the failure is one of the
    three token-state failures (status 401), or one of the two lookup
    failures (status 404), or an untyped fault of the database. *)
Theorem C3_refresh_failures_are_five_typed_or_a_database_fault
    (Profile : Type) (env : Env Profile)
    (token : string) (ua ip : option string) (w w' : World) (e : Exn) :
  AuthService.refreshTokens env token ua ip w = (Throw e, w') ->
  (In e token_state_failures /\ statusCode_of e = Some 401)
  \/ (In e lookup_failures /\ statusCode_of e = Some 404)
  \/ (exists f, e = DatabaseError f).
Proof.
  destruct (find_cases Profile env token w) as [H | [stored H]].
  - rewrite (refreshTokens_not_found Profile env token ua ip w H).
    intros E. inversion E. left. split; [left|]; reflexivity.
  - rewrite (refreshTokens_found Profile env token ua ip w stored H). unfold_queries.
    destruct (Z.gtb _ _).
    { intros E. inversion E. left. split; [right; right; left|]; reflexivity. }
    destruct (getUserById _ _) as [u|].
    2:{ intros E. inversion E. right. left. split; [left|]; reflexivity. }
    destruct (getProfileById _ _) as [p|].
    2:{ intros E. inversion E. right. left. split; [right; left|]; reflexivity. }
    simpl. destruct (violation _ _) as [f|]; simpl; intros E; inversion E.
    right. right. exists f. reflexivity.
Qed.

(** An unknown secret on the empty table is answered with the first of the
    token-state failures. *)
Lemma C3_witness :
  (In (AppError ERROR_MESSAGES.AUTH_REFRESH_TOKEN_NOT_FOUND 401
                ERROR_CODES.AUTH_REFRESH_TOKEN_NOT_FOUND) token_state_failures
   /\ statusCode_of (AppError ERROR_MESSAGES.AUTH_REFRESH_TOKEN_NOT_FOUND 401
                              ERROR_CODES.AUTH_REFRESH_TOKEN_NOT_FOUND) = Some 401)
  \/ (In (AppError ERROR_MESSAGES.AUTH_REFRESH_TOKEN_NOT_FOUND 401
                   ERROR_CODES.AUTH_REFRESH_TOKEN_NOT_FOUND) lookup_failures
      /\ statusCode_of (AppError ERROR_MESSAGES.AUTH_REFRESH_TOKEN_NOT_FOUND 401
                                 ERROR_CODES.AUTH_REFRESH_TOKEN_NOT_FOUND) = Some 404)
  \/ (exists f, AppError ERROR_MESSAGES.AUTH_REFRESH_TOKEN_NOT_FOUND 401
                         ERROR_CODES.AUTH_REFRESH_TOKEN_NOT_FOUND = DatabaseError f).
Proof.
  apply (C3_refresh_failures_are_five_typed_or_a_database_fault
           unit Demo.env "nobody" None None Demo.empty Demo.empty).
  reflexivity.
Defined.

(** ** The role claim *)

(** C9.  When the user that a login or a refresh looked up has a null role,
    the access token issued by a successful call is signed over the claims
    [{sub: user.id, role: 'user'}]. *)
Theorem C9_null_role_is_issued_as_user
    (Profile : Type) (env : Env Profile)
    (email password token : string) (ua ip : option string)
    (w w' : World) (usr : Users.t) (prof : Profile) (stored : RefreshToken)
    (s : Session Profile) :
  Users.role usr = None ->
  (loginQuery env email password = inr (usr, prof)
   /\ AuthService.login env email password ua ip w = (Ok s, w'))
  \/ (fst (AuthRepository.findRefreshTokenByToken env token w) = Ok (Some stored)
      /\ getUserById env (userId stored) = Some usr
      /\ AuthService.refreshTokens env token ua ip w = (Ok s, w')) ->
  access_token s = generateToken env {| sub := Users.id usr; role := "user" |}.
Proof.
  intros Hrole [[Hq Hrun] | (Hfound & Huser & Hrun)].
  - unfold AuthService.login in Hrun. unfold_queries in Hrun.
    rewrite Hq in Hrun. simpl in Hrun.
    destruct (violation _ _); simpl in Hrun; inversion Hrun.
    simpl. rewrite Hrole. reflexivity.
  - rewrite (refreshTokens_found Profile env token ua ip w stored Hfound) in Hrun.
    unfold_queries in Hrun.
    destruct (Z.gtb _ _); [discriminate|].
    rewrite Huser in Hrun.
    destruct (getProfileById _ _) as [p|]; [|discriminate].
    simpl in Hrun. destruct (violation _ _); simpl in Hrun; inversion Hrun.
    simpl. rewrite Hrole. reflexivity.
Qed.

(** Bob's role is null; his login is issued the role [user]. *)
Lemma C9_witness :
  access_token
    (mkSession Demo.bob tt "u-bob:user" "secret") =
  generateToken Demo.env {| sub := Users.id Demo.bob; role := "user" |}.
Proof.
  apply (C9_null_role_is_issued_as_user unit Demo.env "bob@example.org" "pw" "-"
           None None Demo.empty
           (snd (AuthService.login Demo.env "bob@example.org" "pw" None None Demo.empty))
           Demo.bob tt (Demo.row "-" "-" "-" 0 None None)
           (mkSession Demo.bob tt "u-bob:user" "secret")).
  - reflexivity.
  - left. split; reflexivity.
Defined.

(** ** Constraints of the table *)

Lemma existsb_eqb_false (A : Type) (f : A -> string) (v : string) (l : list A) :
  existsb (fun x => String.eqb (f x) v) l = false <-> ~ In v (map f l).
Proof.
  induction l as [|a l IH]; simpl.
  - split; [intros _ []|reflexivity].
  - rewrite orb_false_iff, IH. split.
    + intros [Ha Hl] [E|E]; [|exact (Hl E)].
      rewrite E, String.eqb_refl in Ha. discriminate.
    + intros H. split.
      * destruct (String.eqb_spec (f a) v) as [E|E]; [|reflexivity].
        exfalso. apply H. left. exact E.
      * intros E. apply H. right. exact E.
Qed.

(** A row is accepted exactly when its strings fit their columns and its id
    and digest are new. *)
Lemma violation_None (r : RefreshToken) (rs : list RefreshToken) :
  violation r rs = None <->
  fits r /\ ~ In (id r) (map id rs) /\ ~ In (tokenHash r) (map tokenHash rs).
Proof.
  unfold violation, fits.
  rewrite <- !existsb_eqb_false.
  destruct (too_long 255 _), (too_long 500 _), (too_long 45 _); simpl;
    try (split; [discriminate | intros [(?&?&?) _]; discriminate]).
  destruct (existsb _ rs); simpl;
    [split; [discriminate | intros (_ & ? & _); discriminate]|].
  destruct (existsb _ rs); simpl;
    [split; [discriminate | intros (_ & _ & ?); discriminate]|].
  split; auto.
Qed.

(** A digest already in the table is rejected, whatever else the row holds. *)
Lemma violation_of_duplicate_digest (r : RefreshToken) (rs : list RefreshToken) :
  In (tokenHash r) (map tokenHash rs) -> exists f, violation r rs = Some f.
Proof.
  intros H. destruct (violation r rs) as [f|] eqn:E; [exists f; reflexivity|].
  apply violation_None in E. destruct E as (_ & _ & E). contradiction.
Qed.

Lemma or_null_Some (s : string) : s <> EmptyString -> or_null (Some s) = Some s.
Proof.
  intros H. unfold or_null, truthy.
  destruct (String.eqb_spec s EmptyString); [contradiction | reflexivity].
Qed.

Lemma revoke_in_app (now : Date) (by_ : option string) (tokenId : string)
    (l1 l2 : list RefreshToken) :
  revoke_in now by_ tokenId (l1 ++ l2) =
  revoke_in now by_ tokenId l1 ++ revoke_in now by_ tokenId l2.
Proof. unfold revoke_in. apply map_app. Qed.

Lemma revoke_in_other (now : Date) (by_ : option string) (tokenId : string)
    (l : list RefreshToken) :
  ~ In tokenId (map id l) -> revoke_in now by_ tokenId l = l.
Proof.
  induction l as [|a l IH]; simpl; intros H; [reflexivity|].
  destruct (String.eqb_spec (id a) tokenId) as [E|E].
  - exfalso. apply H. left. exact E.
  - f_equal. apply IH. intros F. apply H. right. exact F.
Qed.

Lemma revoke_in_ids (now : Date) (by_ : option string) (tokenId : string)
    (l : list RefreshToken) :
  map id (revoke_in now by_ tokenId l) = map id l.
Proof.
  induction l as [|a l IH]; simpl; [reflexivity|].
  rewrite IH. destruct (String.eqb (id a) tokenId); reflexivity.
Qed.

Lemma revoke_in_digests (now : Date) (by_ : option string) (tokenId : string)
    (l : list RefreshToken) :
  map tokenHash (revoke_in now by_ tokenId l) = map tokenHash l.
Proof.
  induction l as [|a l IH]; simpl; [reflexivity|].
  rewrite IH. destruct (String.eqb (id a) tokenId); reflexivity.
Qed.

(** ** The rotation step *)

Section Rotation.

Variable Profile : Type.
Variable env : Env Profile.

(** The world after a successful rotation of [stored] into [fresh]. *)
Lemma refreshTokens_rotates (token : string) (ua ip : option string) (w : World)
    (stored : RefreshToken) (usr : Users.t) (prof : Profile) :
  fst (AuthRepository.findRefreshTokenByToken env token w) = Ok (Some stored) ->
  now_at env (clock w) <= expiresAt stored ->
  getUserById env (userId stored) = Some usr ->
  getProfileById env (Users.id usr) = Some prof ->
  let fresh := minted env (S (clock w)) (entropy w) (uuids w) (Users.id usr) ua ip in
  violation fresh (refresh_tokens w) = None ->
  id fresh <> EmptyString ->
  AuthService.refreshTokens env token ua ip w =
  (Ok {| user := usr;
         profile := prof;
         access_token :=
           generateToken env {| sub := Users.id usr;
                                role := or_else (Users.role usr) "user" |};
         refresh_token := randomBytes32_base64url env (entropy w) |},
   {| refresh_tokens :=
        revoke_in (now_at env (S (S (S (clock w))))) (Some (id fresh)) (id stored)
                  (refresh_tokens w) ++ [fresh];
      journal :=
        (journal w ++ [INSERT (values_of fresh)])
        ++ [UPDATE (revocation (now_at env (S (S (S (clock w))))) (Some (id fresh)))
                   (eq_id (id stored))];
      clock := S (S (S (S (clock w))));
      entropy := S (entropy w);
      uuids := S (uuids w) |}).
Proof.
  intros Hfound Hlive Huser Hprof fresh Hfree Hid.
  destruct (found_is_active Profile env token w stored Hfound) as (Hin & _ & _).
  rewrite (refreshTokens_found Profile env token ua ip w stored Hfound).
  unfold_queries. cbn [clock refresh_tokens journal entropy uuids].
  assert (Hgt : Z.gtb (now_at env (clock w)) (expiresAt stored) = false).
  { destruct (Z.gtb_spec (now_at env (clock w)) (expiresAt stored)); [lia|reflexivity]. }
  rewrite Hgt, Huser, Hprof.
  cbn [clock refresh_tokens journal entropy uuids].
  change (violation _ (refresh_tokens w)) with (violation fresh (refresh_tokens w)).
  rewrite Hfree. cbn [clock refresh_tokens journal entropy uuids id].
  change (or_null (Some (gen_random_uuid env (uuids w)))) with (or_null (Some (id fresh))).
  rewrite (or_null_Some _ Hid).
  assert (Hsplit :
    revoke_in (now_at env (S (S (S (clock w))))) (Some (id fresh)) (id stored)
              (refresh_tokens w ++ [fresh]) =
    revoke_in (now_at env (S (S (S (clock w))))) (Some (id fresh)) (id stored)
              (refresh_tokens w) ++ [fresh]).
  { rewrite revoke_in_app. f_equal. apply revoke_in_other.
    simpl. intros [E|[]].
    apply violation_None in Hfree. destruct Hfree as (_ & Hnew & _).
    apply Hnew. change (id fresh = id stored) in E. rewrite E.
    apply in_map. exact Hin. }
  rewrite <- Hsplit. reflexivity.
Qed.

(** When the insert is rejected the presented record is left as it was. *)
Lemma refreshTokens_insert_rejected (token : string) (ua ip : option string) (w : World)
    (stored : RefreshToken) (usr : Users.t) (prof : Profile) (f : PgFault) :
  fst (AuthRepository.findRefreshTokenByToken env token w) = Ok (Some stored) ->
  now_at env (clock w) <= expiresAt stored ->
  getUserById env (userId stored) = Some usr ->
  getProfileById env (Users.id usr) = Some prof ->
  let fresh := minted env (S (clock w)) (entropy w) (uuids w) (Users.id usr) ua ip in
  violation fresh (refresh_tokens w) = Some f ->
  AuthService.refreshTokens env token ua ip w =
  (Throw (DatabaseError f),
   {| refresh_tokens := refresh_tokens w;
      journal := journal w ++ [INSERT (values_of fresh)];
      clock := S (S (S (clock w)));
      entropy := S (entropy w);
      uuids := S (uuids w) |}).
Proof.
  intros Hfound Hlive Huser Hprof fresh Hfree.
  rewrite (refreshTokens_found Profile env token ua ip w stored Hfound).
  unfold_queries. cbn [clock refresh_tokens journal entropy uuids].
  assert (Hgt : Z.gtb (now_at env (clock w)) (expiresAt stored) = false).
  { destruct (Z.gtb_spec (now_at env (clock w)) (expiresAt stored)); [lia|reflexivity]. }
  rewrite Hgt, Huser, Hprof.
  cbn [clock refresh_tokens journal entropy uuids].
  change (violation _ (refresh_tokens w)) with (violation fresh (refresh_tokens w)).
  rewrite Hfree. reflexivity.
Qed.

End Rotation.

(** C4.  On the valid path (the lookup returns [stored], the clock is not
    past its [expiresAt], the user with the owner's id and the profile are
    found) with an insert that the table accepts and a non-empty generated
    id, the call succeeds and sends exactly two write statements, in this
    order: the INSERT of the new record [fresh], then the UPDATE by id of the
    presented record.
    [fresh] has the owner of [stored], an expiry one refresh lifetime after
    the clock reading of this call, the user agent and address of this
    request, and is active; afterwards the presented record is revoked with
    [replacedByToken] equal to the id of [fresh]. *)
Theorem C4_rotation_inserts_then_revokes
    (Profile : Type) (env : Env Profile)
    (token : string) (ua ip : option string) (w : World)
    (stored : RefreshToken) (usr : Users.t) (prof : Profile) :
  fst (AuthRepository.findRefreshTokenByToken env token w) = Ok (Some stored) ->
  now_at env (clock w) <= expiresAt stored ->
  getUserById env (userId stored) = Some usr ->
  Users.id usr = userId stored ->
  getProfileById env (Users.id usr) = Some prof ->
  violation (minted env (S (clock w)) (entropy w) (uuids w) (userId stored) ua ip)
            (refresh_tokens w) = None ->
  gen_random_uuid env (uuids w) <> EmptyString ->
  exists (s : Session Profile) (w' : World) (fresh : RefreshToken) (revoked_at : Date),
    AuthService.refreshTokens env token ua ip w = (Ok s, w')
    /\ journal w' =
       journal w ++ [INSERT (values_of fresh);
                     UPDATE (revocation revoked_at (Some (id fresh))) (eq_id (id stored))]
    /\ refresh_tokens w' =
       revoke_in revoked_at (Some (id fresh)) (id stored) (refresh_tokens w) ++ [fresh]
    /\ tokenHash fresh = hashToken env (refresh_token s)
    /\ userId fresh = userId stored
    /\ expiresAt fresh =
       now_at env (S (clock w)) + REFRESH_TOKEN_EXPIRATION_MINUTES env * 60000
    /\ userAgent fresh = ua /\ ipAddress fresh = ip
    /\ revokedAt fresh = None /\ replacedByToken fresh = None
    /\ In (id stored) (map id (refresh_tokens w'))
    /\ (forall r, In r (refresh_tokens w') -> id r = id stored ->
                  revokedAt r = Some revoked_at /\ replacedByToken r = Some (id fresh)).
Proof.
  intros Hfound Hlive Huser Hsame Hprof Hfree Hid.
  rewrite <- Hsame in Hfree.
  pose proof (refreshTokens_rotates Profile env token ua ip w stored usr prof
                Hfound Hlive Huser Hprof Hfree Hid) as Hrun.
  destruct (found_is_active Profile env token w stored Hfound) as (Hin & _ & _).
  eexists. eexists.
  exists (minted env (S (clock w)) (entropy w) (uuids w) (Users.id usr) ua ip).
  exists (now_at env (S (S (S (clock w))))).
  split; [exact Hrun|].
  cbn [journal refresh_tokens refresh_token].
  split; [rewrite <- app_assoc; reflexivity|].
  split; [reflexivity|]. split; [reflexivity|]. split; [exact Hsame|].
  split; [reflexivity|]. split; [reflexivity|]. split; [reflexivity|].
  split; [reflexivity|]. split; [reflexivity|].
  split.
  - rewrite map_app, revoke_in_ids. apply in_or_app. left. apply in_map. exact Hin.
  - intros r Hr Hrid. apply in_app_or in Hr. destruct Hr as [Hr | [Hr | []]].
    + unfold revoke_in in Hr. apply in_map_iff in Hr. destruct Hr as (r0 & Hr0 & _).
      simpl in Hr0. destruct (String.eqb_spec (id r0) (id stored)) as [E|E].
      * subst r. split; reflexivity.
      * subst r. contradiction.
    + exfalso. apply violation_None in Hfree. destruct Hfree as (_ & Hnew & _).
      apply Hnew. rewrite Hr, Hrid. apply in_map. exact Hin.
Qed.

(** The premises of C4 hold for Ann's first rotation after her login. *)
Lemma C4_witness :
  exists (s : Session unit) (w' : World),
    AuthService.refreshTokens Demo.env "secret" None None Demo.logged_in = (Ok s, w')
    /\ map id (refresh_tokens w') = ["id"; "idI"]%string.
Proof.
  destruct (C4_rotation_inserts_then_revokes unit Demo.env "secret" None None
              Demo.logged_in
              (mkRefreshToken "id" "u-ann" "#secret" 604800000 None None 1000
                              (Some "curl/8") (Some "10.0.0.7"))
              Demo.ann tt)
    as (s & w' & fresh & t & Hrun & _ & Hrows & _).
  - vm_compute. reflexivity.
  - vm_compute. discriminate.
  - reflexivity.
  - reflexivity.
  - reflexivity.
  - vm_compute. reflexivity.
  - vm_compute. discriminate.
  - exists s, w'. split; [exact Hrun|].
    vm_compute in Hrun. injection Hrun as _ Hw. rewrite <- Hw. reflexivity.
Defined.

(** ** Logout *)

Lemma NoDup_map_eq (A B : Type) (f : A -> B) (l : list A) (a b : A) :
  NoDup (map f l) -> In a l -> In b l -> f a = f b -> a = b.
Proof.
  induction l as [|x l IH]; simpl; intros Hnd Ha Hb E; [contradiction|].
  inversion Hnd as [|? ? Hx Hl]; subst.
  destruct Ha as [Ha|Ha], Hb as [Hb|Hb].
  - congruence.
  - exfalso. apply Hx. subst x. rewrite E. apply in_map. exact Hb.
  - exfalso. apply Hx. subst x. rewrite <- E. apply in_map. exact Ha.
  - apply IH; assumption.
Qed.

Lemma revoke_in_Forall2 (now : Date) (by_ : option string) (tokenId : string)
    (l : list RefreshToken) :
  Forall2 (fun r r' => if String.eqb (id r) tokenId
                       then revoked_image now by_ r r' else r' = r)
          l (revoke_in now (or_null by_) tokenId l).
Proof.
  induction l as [|r l IH]; simpl; constructor; [|exact IH].
  destruct (String.eqb (id r) tokenId); [|reflexivity].
  unfold revoked_image, assign, or_null, truthy; simpl.
  destruct by_ as [s|]; simpl; [destruct (String.eqb s EmptyString); simpl|];
    repeat split; reflexivity.
Qed.

Section Logout.

Variable Profile : Type.
Variable env : Env Profile.

(** With the unique index in force, the lookup returns the one unrevoked
    record that carries the digest. *)
Lemma find_unique (token : string) (w : World) (stored : RefreshToken) :
  NoDup (map tokenHash (refresh_tokens w)) ->
  In stored (refresh_tokens w) ->
  tokenHash stored = hashToken env token ->
  revokedAt stored = None ->
  fst (AuthRepository.findRefreshTokenByToken env token w) = Ok (Some stored).
Proof.
  rewrite findRefreshTokenByToken_eq. cbn [fst].
  intros Hnd Hin Hh Hr. f_equal.
  destruct (find _ _) as [r|] eqn:E.
  - apply find_some in E. destruct E as [Hrin Hp]. simpl in Hp.
    apply andb_true_iff in Hp. destruct Hp as [Hp _]. apply String.eqb_eq in Hp.
    f_equal. apply (NoDup_map_eq _ _ tokenHash (refresh_tokens w)); congruence.
  - exfalso. apply (find_none _ _ E) in Hin. simpl in Hin.
    rewrite Hh, String.eqb_refl, Hr in Hin. discriminate.
Qed.

Lemma logout_found (token : string) (w : World) (stored : RefreshToken) :
  fst (AuthRepository.findRefreshTokenByToken env token w) = Ok (Some stored) ->
  AuthService.logout env token w =
  (Ok tt,
   {| refresh_tokens :=
        revoke_in (now_at env (clock w)) None (id stored) (refresh_tokens w);
      journal :=
        journal w ++ [UPDATE (revocation (now_at env (clock w)) None) (eq_id (id stored))];
      clock := S (clock w);
      entropy := entropy w;
      uuids := uuids w |}).
Proof.
  intros H. destruct (found_is_active Profile env token w stored H) as (_ & _ & Hr).
  unfold AuthService.logout.
  erewrite bind_Ok by (apply findRefreshTokenByToken_run; exact H).
  cbv beta iota. rewrite Hr. reflexivity.
Qed.

Lemma logout_not_found (token : string) (w : World) :
  fst (AuthRepository.findRefreshTokenByToken env token w) = Ok None ->
  AuthService.logout env token w = (Ok tt, w).
Proof.
  intros H. unfold AuthService.logout.
  erewrite bind_Ok by (apply findRefreshTokenByToken_run; exact H).
  reflexivity.
Qed.

(** After a logout that found [stored], no unrevoked record carries the
    digest any more. *)
Lemma logout_leaves_none (token : string) (w : World) (stored : RefreshToken)
    (now : Date) :
  NoDup (map tokenHash (refresh_tokens w)) ->
  In stored (refresh_tokens w) ->
  tokenHash stored = hashToken env token ->
  forall r, In r (revoke_in now None (id stored) (refresh_tokens w)) ->
            tokenHash r = hashToken env token -> revokedAt r <> None.
Proof.
  intros Hnd Hin Hh r Hr Hrh.
  unfold revoke_in in Hr. apply in_map_iff in Hr. destruct Hr as (r0 & E & Hr0).
  simpl in E. destruct (String.eqb_spec (id r0) (id stored)) as [Eid|Eid].
  - subst r. simpl. discriminate.
  - subst r. exfalso. apply Eid. f_equal.
    apply (NoDup_map_eq _ _ tokenHash (refresh_tokens w)); congruence.
Qed.

End Logout.

(** C7, as the specification states it, fails for an expired secret: the
    record of [Demo.lapsed] is past its [expiresAt] and unrevoked, and logout
    revokes it, sending an UPDATE. *)
Lemma C7_logout_revokes_an_expired_record :
  exists w',
    AuthController.logout Demo.env (Some "old"%string) Demo.lapsed = (Ok tt, w')
    /\ (forall r, In r (refresh_tokens Demo.lapsed) ->
                  now_at Demo.env (clock Demo.lapsed) > expiresAt r)
    /\ map revokedAt (refresh_tokens Demo.lapsed) = [None]
    /\ map revokedAt (refresh_tokens w') = [Some 100000]
    /\ List.length (journal w') = S (List.length (journal Demo.lapsed)).
Proof.
  eexists. split; [vm_compute; reflexivity|].
  split; [intros r [E|[]]; subst r; reflexivity|].
  repeat split.
Qed.

(** C7, amended.  On a table that satisfies its unique constraints, the
    logout handler never fails and is idempotent.  If an unrevoked record
    carries the digest of the cookie's secret, expired or not, the rows with
    its id are revoked at the time of the call with a null [replacedByToken]
    and every other row is untouched.  If the cookie is absent or
    empty, or every record with the digest is already revoked (none at all
    for an unknown secret), the world is left exactly as it was. *)
Theorem C7_logout_never_fails_and_revokes_the_unrevoked
    (Profile : Type) (env : Env Profile) (cookie : option string) (w : World) :
  well_formed (refresh_tokens w) ->
  exists w',
    AuthController.logout env cookie w = (Ok tt, w')
    /\ AuthController.logout env cookie w' = (Ok tt, w')
    /\ (forall token stored,
          cookie = Some token -> token <> EmptyString ->
          In stored (refresh_tokens w) ->
          tokenHash stored = hashToken env token ->
          revokedAt stored = None ->
          Forall2 (fun r r' => if String.eqb (id r) (id stored)
                               then revoked_image (now_at env (clock w)) None r r'
                               else r' = r)
                  (refresh_tokens w) (refresh_tokens w')
          /\ journal w' =
             journal w ++ [UPDATE (revocation (now_at env (clock w)) None)
                                  (eq_id (id stored))])
    /\ (cookie = None \/ cookie = Some EmptyString
        \/ (exists token, cookie = Some token
              /\ forall r, In r (refresh_tokens w) ->
                           tokenHash r = hashToken env token -> revokedAt r <> None)
        -> w' = w).
Proof.
  intros [_ Hnd].
  destruct cookie as [token|].
  2:{ exists w. split; [reflexivity|]. split; [reflexivity|]. split; [|reflexivity].
      intros ? ? E; discriminate E. }
  destruct (String.eqb_spec token EmptyString) as [Eempty|Hne].
  { subst token. exists w. split; [reflexivity|]. split; [reflexivity|].
    split; [|reflexivity].
    intros ? ? E Hne. injection E as E. congruence. }
  assert (Hctl : forall v, AuthController.logout env (Some token) v =
                           AuthService.logout env token v).
  { intros v. unfold AuthController.logout, truthy.
    destruct (String.eqb_spec token EmptyString); [contradiction|reflexivity]. }
  rewrite Hctl.
  destruct (find_cases Profile env token w) as [Hnone | [stored Hfound]].
  - exists w. rewrite Hctl, (logout_not_found Profile env token w Hnone).
    split; [reflexivity|]. split; [reflexivity|]. split; [|reflexivity].
    intros token' stored' E _ Hin Hh Hr. injection E as E. subst token'.
    rewrite (find_unique Profile env token w stored' Hnd Hin Hh Hr) in Hnone.
    discriminate.
  - destruct (found_is_active Profile env token w stored Hfound) as (Hin & Hh & Hr).
    rewrite (logout_found Profile env token w stored Hfound).
    eexists. split; [reflexivity|]. split; [|split].
    + rewrite Hctl. apply logout_not_found.
      rewrite revoked_is_not_found; [reflexivity|].
      cbn [refresh_tokens].
      apply (logout_leaves_none Profile env token w stored _ Hnd Hin Hh).
    + intros token' stored' E _ Hin' Hh' Hr'. injection E as E. subst token'.
      assert (stored' = stored).
      { apply (NoDup_map_eq _ _ tokenHash (refresh_tokens w)); congruence. }
      subst stored'. cbn [refresh_tokens journal]. split; [|reflexivity].
      apply (revoke_in_Forall2 (now_at env (clock w)) None (id stored)).
    + intros [E | [E | (token' & E & Hall)]]; try discriminate E.
      * injection E as E. contradiction.
      * injection E as E. subst token'. exfalso. exact (Hall stored Hin Hh Hr).
Qed.

(** Ann logs out twice after her login. *)
Lemma C7_witness :
  exists w',
    AuthController.logout Demo.env (Some "secret"%string) Demo.logged_in = (Ok tt, w')
    /\ AuthController.logout Demo.env (Some "secret"%string) w' = (Ok tt, w').
Proof.
  destruct (C7_logout_never_fails_and_revokes_the_unrevoked
              unit Demo.env (Some "secret"%string) Demo.logged_in)
    as (w' & H1 & H2 & _).
  - split; vm_compute; repeat constructor; simpl; intuition discriminate.
  - exists w'. split; assumption.
Defined.

(** ** Digest collisions *)

Section Insert.

Variable Profile : Type.
Variable env : Env Profile.

Lemma createRefreshToken_run (token owner : string) (expires : Date)
    (ua ip : option string) (w : World) :
  let r := {| id := gen_random_uuid env (uuids w);
              userId := owner;
              tokenHash := hashToken env token;
              expiresAt := expires;
              revokedAt := None;
              replacedByToken := None;
              createdAt := now_at env (clock w);
              userAgent := ua;
              ipAddress := ip |} in
  createRefreshToken env token owner expires ua ip w =
  match violation r (refresh_tokens w) with
  | Some f =>
      (Throw (DatabaseError f),
       {| refresh_tokens := refresh_tokens w;
          journal := journal w ++ [INSERT (values_of r)];
          clock := S (clock w);
          entropy := entropy w;
          uuids := S (uuids w) |})
  | None =>
      (Ok r,
       {| refresh_tokens := refresh_tokens w ++ [r];
          journal := journal w ++ [INSERT (values_of r)];
          clock := S (clock w);
          entropy := entropy w;
          uuids := S (uuids w) |})
  end.
Proof.
  intros r. unfold_queries. cbn [clock refresh_tokens journal entropy uuids].
  change (violation _ (refresh_tokens w)) with (violation r (refresh_tokens w)).
  destruct (violation r (refresh_tokens w)); reflexivity.
Qed.

Lemma login_run (email password : string) (ua ip : option string) (w : World)
    (usr : Users.t) (prof : Profile) :
  loginQuery env email password = inr (usr, prof) ->
  let fresh := minted env (clock w) (entropy w) (uuids w) (Users.id usr) ua ip in
  AuthService.login env email password ua ip w =
  match violation fresh (refresh_tokens w) with
  | Some f =>
      (Throw (DatabaseError f),
       {| refresh_tokens := refresh_tokens w;
          journal := journal w ++ [INSERT (values_of fresh)];
          clock := S (S (clock w));
          entropy := S (entropy w);
          uuids := S (uuids w) |})
  | None =>
      (Ok {| user := usr;
             profile := prof;
             access_token :=
               generateToken env {| sub := Users.id usr;
                                    role := or_else (Users.role usr) "user" |};
             refresh_token := randomBytes32_base64url env (entropy w) |},
       {| refresh_tokens := refresh_tokens w ++ [fresh];
          journal := journal w ++ [INSERT (values_of fresh)];
          clock := S (S (clock w));
          entropy := S (entropy w);
          uuids := S (uuids w) |})
  end.
Proof.
  intros Hq fresh. unfold AuthService.login. unfold_queries.
  rewrite Hq. cbn [clock refresh_tokens journal entropy uuids fst snd].
  change (violation _ (refresh_tokens w)) with (violation fresh (refresh_tokens w)).
  destruct (violation fresh (refresh_tokens w)); reflexivity.
Qed.

End Insert.

(** C8, as the specification states it, fails.  In [Demo.colliding] the
    digest of the next generated secret is already stored, while the digest
    of the one after it is free.  Login fails at once with the untyped
    unique-violation fault of the index: one secret is drawn and one INSERT is
    sent, although a second attempt would have been accepted. *)
Lemma C8_login_does_not_retry_a_collision :
  exists w',
    AuthService.login Demo.env "bob@example.org" "pw" None None Demo.colliding =
      (Throw (DatabaseError (unique_violation "idx_refresh_tokens_token_hash")), w')
    /\ typed (DatabaseError (unique_violation "idx_refresh_tokens_token_hash")) = false
    /\ entropy w' = S (entropy Demo.colliding)
    /\ List.length (journal w') = S (List.length (journal Demo.colliding))
    /\ violation (minted Demo.env (clock w') (entropy w') (uuids w') "u-bob" None None)
                 (refresh_tokens w') = None.
Proof.
  eexists. split; [vm_compute; reflexivity|].
  repeat split.
Qed.

(** C8, amended.  When the digest of [token] is already in the table,
    [createRefreshToken] fails with a fault of the database, which is not a
    typed failure, and the rows are unchanged.  When [token] is the secret
    that the next call draws, a login with good credentials and a refresh on
    the valid path fail with that fault too: they draw that one secret, send
    one INSERT, leave the rows unchanged and do not try again. *)
Theorem C8_duplicate_digest_is_rejected_and_not_retried
    (Profile : Type) (env : Env Profile) (token : string) (w : World) :
  In (hashToken env token) (map tokenHash (refresh_tokens w)) ->
  (forall owner expires ua ip,
     exists f w',
       createRefreshToken env token owner expires ua ip w = (Throw (DatabaseError f), w')
       /\ typed (DatabaseError f) = false
       /\ refresh_tokens w' = refresh_tokens w)
  /\ (token = randomBytes32_base64url env (entropy w) ->
      (forall email password ua ip usr prof,
         loginQuery env email password = inr (usr, prof) ->
         exists f v w',
           AuthService.login env email password ua ip w = (Throw (DatabaseError f), w')
           /\ refresh_tokens w' = refresh_tokens w
           /\ entropy w' = S (entropy w)
           /\ journal w' = journal w ++ [INSERT v])
      /\ (forall presented ua ip stored usr prof,
            fst (AuthRepository.findRefreshTokenByToken env presented w) =
              Ok (Some stored) ->
            now_at env (clock w) <= expiresAt stored ->
            getUserById env (userId stored) = Some usr ->
            getProfileById env (Users.id usr) = Some prof ->
            exists f v w',
              AuthService.refreshTokens env presented ua ip w =
                (Throw (DatabaseError f), w')
              /\ refresh_tokens w' = refresh_tokens w
              /\ entropy w' = S (entropy w)
              /\ journal w' = journal w ++ [INSERT v])).
Proof.
  intros Hdup. split; [|intros Htoken; split].
  - intros owner expires ua ip.
    pose proof (createRefreshToken_run Profile env token owner expires ua ip w) as Hrun.
    cbv zeta in Hrun.
    destruct (violation_of_duplicate_digest
                (mkRefreshToken (gen_random_uuid env (uuids w)) owner
                   (hashToken env token) expires None None (now_at env (clock w)) ua ip)
                (refresh_tokens w) Hdup) as [f Hf].
    rewrite Hf in Hrun. eexists. eexists. split; [exact Hrun|]. split; reflexivity.
  - intros email password ua ip usr prof Hq.
    pose proof (login_run Profile env email password ua ip w usr prof Hq) as Hrun.
    cbv zeta in Hrun.
    destruct (violation_of_duplicate_digest
                (minted env (clock w) (entropy w) (uuids w) (Users.id usr) ua ip)
                (refresh_tokens w)) as [f Hf].
    { simpl. fold (hashToken env (randomBytes32_base64url env (entropy w))).
      rewrite <- Htoken. exact Hdup. }
    rewrite Hf in Hrun. eexists. eexists. eexists. split; [exact Hrun|].
    repeat split.
  - intros presented ua ip stored usr prof Hfound Hlive Huser Hprof.
    destruct (violation_of_duplicate_digest
                (minted env (S (clock w)) (entropy w) (uuids w) (Users.id usr) ua ip)
                (refresh_tokens w)) as [f Hf].
    { simpl. fold (hashToken env (randomBytes32_base64url env (entropy w))).
      rewrite <- Htoken. exact Hdup. }
    pose proof (refreshTokens_insert_rejected Profile env presented ua ip w stored
                  usr prof f Hfound Hlive Huser Hprof Hf) as Hrun.
    eexists. eexists. eexists. split; [exact Hrun|]. repeat split.
Qed.

(** The premises of C8 hold for Bob's login on [Demo.colliding]. *)
Lemma C8_witness :
  exists f v w',
    AuthService.login Demo.env "bob@example.org" "pw" None None Demo.colliding =
      (Throw (DatabaseError f), w')
    /\ refresh_tokens w' = refresh_tokens Demo.colliding
    /\ entropy w' = S (entropy Demo.colliding)
    /\ journal w' = journal Demo.colliding ++ [INSERT v].
Proof.
  destruct (C8_duplicate_digest_is_rejected_and_not_retried
              unit Demo.env "secret" Demo.colliding) as [_ [Hlogin _]].
  - vm_compute. left. reflexivity.
  - reflexivity.
  - apply (Hlogin "bob@example.org" "pw" None None Demo.bob tt)%string. reflexivity.
Defined.

(** ** Rotation chains *)

Lemma pool_prefix (A : Type) (f : nat -> A) (l : list A) (a m k : nat) :
  NoDup (l ++ map f (seq a m)) -> (k <= m)%nat -> NoDup (l ++ map f (seq a k)).
Proof.
  intros H Hk. replace m with (k + (m - k))%nat in H by lia.
  rewrite seq_app, map_app, app_assoc in H.
  exact (NoDup_app_remove_r _ _ H).
Qed.

Lemma pool_fresh (A : Type) (f : nat -> A) (l : list A) (a m k : nat) :
  NoDup (l ++ map f (seq a m)) -> (k < m)%nat ->
  ~ In (f (a + k)%nat) (l ++ map f (seq a k)).
Proof.
  intros H Hk. replace m with (k + S (m - S k))%nat in H by lia.
  rewrite seq_app, map_app, app_assoc in H. simpl in H.
  apply NoDup_remove_2 in H. intros F. apply H.
  apply in_or_app. left. exact F.
Qed.

Lemma rotation_chain_extend (revs : list RefreshToken) (tip tip' fresh : RefreshToken) :
  rotation_chain (revs ++ [tip]) = true ->
  id tip' = id tip ->
  active tip' = false ->
  replacedByToken tip' = Some (id fresh) ->
  active fresh = true ->
  rotation_chain ((revs ++ [tip']) ++ [fresh]) = true.
Proof.
  intros H Hid Hrev Hlink Hfresh.
  induction revs as [|r revs IH].
  - simpl. rewrite Hrev, Hlink, Hfresh. simpl. rewrite String.eqb_refl. reflexivity.
  - destruct revs as [|r' revs].
    + simpl in *. rewrite Hid. rewrite Hrev, Hlink, Hfresh. simpl.
      rewrite String.eqb_refl.
      apply andb_true_iff in H. destruct H as [H _]. rewrite H. reflexivity.
    + change (rotation_chain (r :: (r' :: revs) ++ [tip]) = true) in H.
      change (rotation_chain (r :: ((r' :: revs) ++ [tip']) ++ [fresh]) = true).
      simpl in H. apply andb_true_iff in H. destruct H as [H Htl].
      specialize (IH Htl). simpl. rewrite H. exact IH.
Qed.

Lemma rotation_chain_links (l : list RefreshToken) :
  rotation_chain l = true ->
  forall i r r', nth_error l i = Some r -> nth_error l (S i) = Some r' ->
                 revokedAt r <> None /\ replacedByToken r = Some (id r').
Proof.
  induction l as [|a l IH]; [discriminate|].
  intros H i r r' Hr Hr'. destruct l as [|b l]; [destruct i; discriminate|].
  change (negb (active a) && option_eqb String.eqb (replacedByToken a) (Some (id b))
          && rotation_chain (b :: l) = true) in H.
  apply andb_true_iff in H. destruct H as [H Htl].
  apply andb_true_iff in H. destruct H as [Ha Hab].
  destruct i as [|i].
  - simpl in Hr, Hr'. injection Hr as Hr. injection Hr' as Hr'. subst a b. split.
    + unfold active in Ha. destruct (revokedAt r); [discriminate|discriminate].
    + destruct (replacedByToken r) as [x|]; [|discriminate]. simpl in Hab.
      apply String.eqb_eq in Hab. rewrite Hab. reflexivity.
  - exact (IH Htl i r r' Hr Hr').
Qed.

Lemma rotation_chain_one_active (l : list RefreshToken) :
  rotation_chain l = true -> List.length (filter active l) = 1%nat.
Proof.
  induction l as [|a l IH]; [discriminate|].
  intros H. destruct l as [|b l].
  - simpl in *. rewrite H. reflexivity.
  - change (negb (active a) && option_eqb String.eqb (replacedByToken a) (Some (id b))
            && rotation_chain (b :: l) = true) in H.
    apply andb_true_iff in H. destruct H as [H Htl].
    apply andb_true_iff in H. destruct H as [Ha _].
    change (List.length (if active a then a :: filter active (b :: l)
                         else filter active (b :: l)) = 1%nat).
    destruct (active a); [discriminate|]. exact (IH Htl).
Qed.

Section Chain.

Variable Profile : Type.
Variable env : Env Profile.
Variable w0 : World.
Variable n : nat.
Variables ua ip : option string.
Variable owner : string.
Variable usr : Users.t.
Variable prof : Profile.

Hypothesis Huser : getUserById env owner = Some usr.
Hypothesis Hsame : Users.id usr = owner.
Hypothesis Hprof : getProfileById env owner = Some prof.
Hypothesis Hids :
  NoDup (map id (refresh_tokens w0) ++ uuid_pool env (uuids w0) (S n)).
Hypothesis Hdigests :
  NoDup (map tokenHash (refresh_tokens w0) ++ digest_pool env (entropy w0) (S n)).
Hypothesis Hnonempty :
  forall k, (k <= n)%nat -> gen_random_uuid env (uuids w0 + k) <> EmptyString.
Hypothesis Hfit :
  forall k, (k <= n)%nat ->
    too_long 255 (Some (hashToken env (randomBytes32_base64url env (entropy w0 + k))))
    = false.
Hypothesis Hua : too_long 500 ua = false.
Hypothesis Hip : too_long 45 ip = false.
Hypothesis Htime :
  forall i j, (clock w0 <= i)%nat -> (i <= j <= i + 3)%nat ->
    now_at env j <= now_at env i + REFRESH_TOKEN_EXPIRATION_MINUTES env * 60000.

(** A login of the owner on [w0] starts a chain of one record. *)
Lemma login_establishes (email password : string) (u0 : Users.t) (p0 : Profile) :
  loginQuery env email password = inr (u0, p0) ->
  Users.id u0 = owner ->
  exists s w tip,
    AuthService.login env email password ua ip w0 = (Ok s, w)
    /\ rotation_invariant env w0 owner 0 w (refresh_token s) [] tip.
Proof.
  intros Hq Hu0.
  pose proof (login_run Profile env email password ua ip w0 u0 p0 Hq) as Hrun.
  cbv zeta in Hrun.
  set (fresh := minted env (clock w0) (entropy w0) (uuids w0) (Users.id u0) ua ip) in *.
  assert (Hfree : violation fresh (refresh_tokens w0) = None).
  { apply violation_None. split; [|split].
    - repeat split; simpl; [|exact Hua|exact Hip].
      specialize (Hfit 0 (Nat.le_0_l n)). rewrite Nat.add_0_r in Hfit. exact Hfit.
    - pose proof (pool_fresh _ (gen_random_uuid env) _ (uuids w0) (S n) 0 Hids
                    (Nat.lt_0_succ n)) as F.
      simpl in F. rewrite Nat.add_0_r, app_nil_r in F. exact F.
    - pose proof (pool_fresh _ (fun k => hashToken env (randomBytes32_base64url env k))
                    _ (entropy w0) (S n) 0 Hdigests (Nat.lt_0_succ n)) as F.
      simpl in F. rewrite Nat.add_0_r, app_nil_r in F. exact F. }
  rewrite Hfree in Hrun.
  eexists. eexists. exists fresh. split; [exact Hrun|].
  constructor; cbn [refresh_tokens refresh_token clock entropy uuids].
  - reflexivity.
  - reflexivity.
  - reflexivity.
  - reflexivity.
  - reflexivity.
  - intros r [E|[]]. subst r. exact Hu0.
  - apply (Htime (clock w0) (S (S (clock w0)))); lia.
  - rewrite map_app. reflexivity.
  - rewrite map_app. reflexivity.
  - lia.
  - lia.
  - lia.
Qed.

(** One more rotation retires the tip and appends its successor. *)
Lemma rotation_step (k : nat) (w : World) (tok : string)
    (revs : list RefreshToken) (tip : RefreshToken) :
  rotation_invariant env w0 owner k w tok revs tip ->
  (k < n)%nat ->
  exists s w' revs' tip',
    AuthService.refreshTokens env tok ua ip w = (Ok s, w')
    /\ rotation_invariant env w0 owner (S k) w' (refresh_token s) revs' tip'.
Proof.
  intros [Hrows Hlen Hchain Hact Hdig Hown Hlive Hi Hd Hu He Hc] Hk.
  assert (Hnd_ids : NoDup (map id (refresh_tokens w))).
  { rewrite Hi. apply (pool_prefix _ _ _ _ (S n)); [exact Hids | lia]. }
  assert (Hnd_dig : NoDup (map tokenHash (refresh_tokens w))).
  { rewrite Hd. apply (pool_prefix _ _ _ _ (S n)); [exact Hdigests | lia]. }
  assert (Hin : In tip (refresh_tokens w)).
  { rewrite Hrows. apply in_or_app. right. apply in_or_app. right. left. reflexivity. }
  assert (Hfound : fst (AuthRepository.findRefreshTokenByToken env tok w) = Ok (Some tip)).
  { apply find_unique; assumption. }
  assert (Htip_owner : userId tip = owner).
  { apply Hown. apply in_or_app. right. left. reflexivity. }
  assert (Huser' : getUserById env (userId tip) = Some usr).
  { rewrite Htip_owner. exact Huser. }
  assert (Hprof' : getProfileById env (Users.id usr) = Some prof).
  { rewrite Hsame. exact Hprof. }
  set (fresh := minted env (S (clock w)) (entropy w) (uuids w) (Users.id usr) ua ip).
  assert (Hfree : violation fresh (refresh_tokens w) = None).
  { apply violation_None. split; [|split].
    - repeat split; simpl; [|exact Hua|exact Hip].
      rewrite He. apply Hfit. lia.
    - change (id fresh) with (gen_random_uuid env (uuids w)). rewrite Hi, Hu.
      apply (pool_fresh _ (gen_random_uuid env) _ (uuids w0) (S n) (S k) Hids). lia.
    - change (tokenHash fresh)
        with (hashToken env (randomBytes32_base64url env (entropy w))).
      rewrite Hd, He.
      apply (pool_fresh _ (fun j => hashToken env (randomBytes32_base64url env j))
               _ (entropy w0) (S n) (S k) Hdigests). lia. }
  assert (Hid : id fresh <> EmptyString).
  { simpl. rewrite Hu. apply Hnonempty. lia. }
  pose proof (refreshTokens_rotates Profile env tok ua ip w tip usr prof
                Hfound Hlive Huser' Hprof' Hfree Hid) as Hrun.
  fold fresh in Hrun.
  set (t := now_at env (S (S (S (clock w))))) in *.
  set (tip' := assign (revocation t (Some (id fresh))) tip).
  assert (Hrows' :
    revoke_in t (Some (id fresh)) (id tip) (refresh_tokens w) ++ [fresh] =
    refresh_tokens w0 ++ (revs ++ [tip']) ++ [fresh]).
  { rewrite Hrows in Hnd_ids. rewrite !map_app in Hnd_ids.
    rewrite app_assoc in Hnd_ids. simpl in Hnd_ids.
    apply NoDup_remove_2 in Hnd_ids. rewrite app_nil_r in Hnd_ids.
    rewrite Hrows, !revoke_in_app.
    rewrite (revoke_in_other t _ (id tip) (refresh_tokens w0)).
    2:{ intros F. apply Hnd_ids. apply in_or_app. left. exact F. }
    rewrite (revoke_in_other t _ (id tip) revs).
    2:{ intros F. apply Hnd_ids. apply in_or_app. right. exact F. }
    simpl. rewrite String.eqb_refl. rewrite <- !app_assoc. reflexivity. }
  rewrite Hrows' in Hrun.
  eexists. eexists. exists (revs ++ [tip']), fresh. split; [exact Hrun|].
  constructor; cbn [refresh_tokens refresh_token clock entropy uuids].
  - reflexivity.
  - rewrite last_length, Hlen. reflexivity.
  - apply (rotation_chain_extend revs tip tip' fresh Hchain); reflexivity.
  - reflexivity.
  - reflexivity.
  - intros r Hr. apply in_app_or in Hr. destruct Hr as [Hr | [Hr | []]].
    + apply in_app_or in Hr. destruct Hr as [Hr | [Hr | []]].
      * apply Hown. apply in_or_app. left. exact Hr.
      * subst r. exact Htip_owner.
    + subst r. exact Hsame.
  - apply (Htime (S (clock w)) (S (S (S (S (clock w)))))); lia.
  - rewrite <- Hrows', map_app, revoke_in_ids, Hi.
    change (map id [fresh]) with [gen_random_uuid env (uuids w)].
    unfold uuid_pool. rewrite (seq_S (S k)), map_app, Hu, <- app_assoc. reflexivity.
  - rewrite <- Hrows', map_app, revoke_in_digests, Hd.
    change (map tokenHash [fresh])
      with [hashToken env (randomBytes32_base64url env (entropy w))].
    unfold digest_pool. rewrite (seq_S (S k)), map_app, He, <- app_assoc. reflexivity.
  - lia.
  - lia.
  - lia.
Qed.

(** [m] rotations from a state that is [m] short of [n] reach [n]. *)
Lemma rotate_run (m : nat) :
  forall (k : nat) (w : World) (tok : string)
         (revs : list RefreshToken) (tip : RefreshToken),
    rotation_invariant env w0 owner k w tok revs tip ->
    (k + m = n)%nat ->
    exists tok' w' revs' tip',
      rotate env m tok ua ip w = (Ok tok', w')
      /\ rotation_invariant env w0 owner n w' tok' revs' tip'.
Proof.
  induction m as [|m IH]; intros k w tok revs tip Hinv Hk.
  - rewrite Nat.add_0_r in Hk. subst k.
    exists tok, w, revs, tip. split; [reflexivity | exact Hinv].
  - destruct (rotation_step k w tok revs tip Hinv) as (s & w1 & revs1 & tip1 & Hrun & Hinv1);
      [lia|].
    destruct (IH (S k) w1 (refresh_token s) revs1 tip1 Hinv1) as
      (tok' & w' & revs' & tip' & Hrot & Hinv'); [lia|].
    exists tok', w', revs', tip'. split; [|exact Hinv'].
    simpl. erewrite bind_Ok by exact Hrun. exact Hrot.
Qed.

End Chain.

(** C5.  A user logs in and then rotates [n] times, each time presenting the
    secret returned last.  Provided the oracles hand out fresh, non-empty
    uuids and secrets with fresh digests that fit the column, the user and
    profile lookups succeed for the owner's id, and every request follows the
    previous one within the refresh lifetime, the session succeeds and
    appends to the table a chain of [n + 1] records of that user: each record
    but the last is revoked and its [replacedByToken] is the id of the next
    one, and exactly one record, the last one created, is active; it carries
    the digest of the secret returned last.  With an empty table at the start
    the chain is the whole table. *)
Theorem C5_rotations_build_a_chain
    (Profile : Type) (env : Env Profile) (n : nat)
    (email password : string) (ua ip : option string) (w : World)
    (usr usr' : Users.t) (prof prof' : Profile) :
  loginQuery env email password = inr (usr, prof) ->
  getUserById env (Users.id usr) = Some usr' ->
  Users.id usr' = Users.id usr ->
  getProfileById env (Users.id usr) = Some prof' ->
  NoDup (map id (refresh_tokens w) ++ uuid_pool env (uuids w) (S n)) ->
  NoDup (map tokenHash (refresh_tokens w) ++ digest_pool env (entropy w) (S n)) ->
  (forall k, (k <= n)%nat -> gen_random_uuid env (uuids w + k) <> EmptyString) ->
  (forall k, (k <= n)%nat ->
     too_long 255 (Some (hashToken env (randomBytes32_base64url env (entropy w + k))))
     = false) ->
  too_long 500 ua = false ->
  too_long 45 ip = false ->
  (forall i j, (clock w <= i)%nat -> (i <= j <= i + 3)%nat ->
     now_at env j <= now_at env i + REFRESH_TOKEN_EXPIRATION_MINUTES env * 60000) ->
  exists (tok : string) (w' : World) (chain : list RefreshToken),
    session env n email password ua ip w = (Ok tok, w')
    /\ refresh_tokens w' = refresh_tokens w ++ chain
    /\ List.length chain = S n
    /\ (forall i r r',
          nth_error chain i = Some r -> nth_error chain (S i) = Some r' ->
          revokedAt r <> None /\ replacedByToken r = Some (id r'))
    /\ (exists tip,
          nth_error chain n = Some tip /\ revokedAt tip = None
          /\ tokenHash tip = hashToken env tok)
    /\ List.length (filter active chain) = 1%nat
    /\ (forall r, In r chain -> userId r = Users.id usr).
Proof.
  intros Hq Huser Hsame Hprof Hids Hdigests Hnonempty Hfit Hua Hip Htime.
  destruct (login_establishes Profile env w n ua ip (Users.id usr)
              Hids Hdigests Hfit Hua Hip Htime email password usr prof Hq eq_refl)
    as (s & w1 & tip1 & Hlogin & Hinv1).
  destruct (rotate_run Profile env w n ua ip (Users.id usr) usr' prof'
              Huser Hsame Hprof Hids Hdigests Hnonempty Hfit Hua Hip Htime
              n 0%nat w1 (refresh_token s) [] tip1 Hinv1 eq_refl)
    as (tok & w' & revs & tip & Hrot & Hinv).
  destruct Hinv as [Hrows Hlen Hchain Hact Hdig Hown _ _ _ _ _ _].
  exists tok, w', (revs ++ [tip]).
  split.
  { unfold session. erewrite bind_Ok by exact Hlogin. exact Hrot. }
  split; [exact Hrows|].
  split; [rewrite last_length, Hlen; reflexivity|].
  split; [exact (rotation_chain_links _ Hchain)|].
  split.
  { exists tip. split; [|split; assumption].
    rewrite nth_error_app2 by lia. rewrite Hlen, Nat.sub_diag. reflexivity. }
  split; [exact (rotation_chain_one_active _ Hchain) | exact Hown].
Qed.

(** The premises of C5 hold for Ann's login and two rotations on the empty
    table. *)
Lemma C5_witness :
  exists (tok : string) (w' : World) (chain : list RefreshToken),
    session Demo.env 2 "ann@example.org" "pw" (Some "curl/8"%string) None Demo.empty
      = (Ok tok, w')
    /\ refresh_tokens w' = chain
    /\ List.length chain = 3%nat
    /\ List.length (filter active chain) = 1%nat.
Proof.
  destruct (C5_rotations_build_a_chain unit Demo.env 2
              "ann@example.org" "pw" (Some "curl/8"%string) None Demo.empty
              Demo.ann Demo.ann tt tt)
    as (tok & w' & chain & Hrun & Hrows & Hlen & _ & _ & Hone & _).
  - reflexivity.
  - reflexivity.
  - reflexivity.
  - reflexivity.
  - vm_compute. repeat constructor; simpl; intuition discriminate.
  - vm_compute. repeat constructor; simpl; intuition discriminate.
  - intros k _. destruct k; discriminate.
  - intros k Hk. destruct k as [|[|[|k]]]; [reflexivity | reflexivity | reflexivity | lia].
  - reflexivity.
  - reflexivity.
  - intros i j _ Hij. unfold Demo.env, now_at, REFRESH_TOKEN_EXPIRATION_MINUTES. lia.
  - exists tok, w', chain. repeat split; assumption.
Defined.

(** ** The constraints are kept by every request *)

Lemma NoDup_snoc (A : Type) (l : list A) (a : A) :
  NoDup l -> ~ In a l -> NoDup (l ++ [a]).
Proof.
  induction l as [|x l IH]; simpl; intros Hnd Ha.
  - constructor; [intros []|constructor].
  - inversion Hnd as [|? ? Hx Hl]; subst. constructor.
    + intros F. apply in_app_or in F. destruct F as [F|[F|[]]]; [exact (Hx F)|].
      apply Ha. left. symmetry. exact F.
    + apply IH; [exact Hl|]. intros F. apply Ha. right. exact F.
Qed.

Lemma well_formed_insert (r : RefreshToken) (rs : list RefreshToken) :
  well_formed rs -> violation r rs = None -> well_formed (rs ++ [r]).
Proof.
  intros [Hi Hd] Hfree. apply violation_None in Hfree.
  destruct Hfree as (_ & Hnew_id & Hnew_digest).
  split; rewrite map_app; apply NoDup_snoc; assumption.
Qed.

Lemma well_formed_update (s : SetClause) (c : Cond) (rs : list RefreshToken) :
  well_formed rs ->
  well_formed (map (fun r => if holds c r then assign s r else r) rs).
Proof.
  intros [Hi Hd].
  assert (Eid : map id (map (fun r => if holds c r then assign s r else r) rs) = map id rs).
  { rewrite map_map. apply map_ext. intros r. destruct (holds c r); reflexivity. }
  assert (Edig : map tokenHash (map (fun r => if holds c r then assign s r else r) rs)
                 = map tokenHash rs).
  { rewrite map_map. apply map_ext. intros r. destruct (holds c r); reflexivity. }
  split; [rewrite Eid | rewrite Edig]; assumption.
Qed.

Section Invariant.

Variable Profile : Type.
Variable env : Env Profile.

Lemma login_keeps_well_formed (email password : string) (ua ip : option string)
    (w w' : World) (res : Result (Session Profile)) :
  well_formed (refresh_tokens w) ->
  AuthService.login env email password ua ip w = (res, w') ->
  well_formed (refresh_tokens w').
Proof.
  intros Hwf. unfold AuthService.login. unfold_queries.
  destruct (loginQuery env email password) as [e|[usr prof]]; simpl.
  - intros E. inversion E. subst. exact Hwf.
  - destruct (violation _ _) eqn:Hv; simpl; intros E; inversion E; subst; simpl.
    + exact Hwf.
    + apply well_formed_insert; assumption.
Qed.

Lemma refreshTokens_keeps_well_formed (token : string) (ua ip : option string)
    (w w' : World) (res : Result (Session Profile)) :
  well_formed (refresh_tokens w) ->
  AuthService.refreshTokens env token ua ip w = (res, w') ->
  well_formed (refresh_tokens w').
Proof.
  intros Hwf.
  destruct (find_cases Profile env token w) as [H | [stored H]].
  - rewrite (refreshTokens_not_found Profile env token ua ip w H).
    intros E. inversion E. subst. exact Hwf.
  - rewrite (refreshTokens_found Profile env token ua ip w stored H). unfold_queries.
    destruct (Z.gtb _ _); [intros E; inversion E; subst; exact Hwf|].
    destruct (getUserById _ _) as [u|]; [|intros E; inversion E; subst; exact Hwf].
    destruct (getProfileById _ _) as [p|]; [|intros E; inversion E; subst; exact Hwf].
    simpl. destruct (violation _ _) eqn:Hv; simpl; intros E; inversion E; subst; simpl.
    + exact Hwf.
    + apply (well_formed_update _ (eq_id (id stored))).
      apply well_formed_insert; assumption.
Qed.

Lemma logout_keeps_well_formed (token : string) (w w' : World) (res : Result unit) :
  well_formed (refresh_tokens w) ->
  AuthService.logout env token w = (res, w') ->
  well_formed (refresh_tokens w').
Proof.
  intros Hwf.
  destruct (find_cases Profile env token w) as [H | [stored H]].
  - rewrite (logout_not_found Profile env token w H).
    intros E. inversion E. subst. exact Hwf.
  - rewrite (logout_found Profile env token w stored H).
    intros E. inversion E. subst. simpl.
    apply (well_formed_update _ (eq_id (id stored))). exact Hwf.
Qed.

End Invariant.

(** * Further properties of the modelled code *)

(** ** The lookup *)

(** The lookup does not touch the world.  It answers with no record exactly
    when every record carrying the digest of the secret is revoked (none at
    all for an unknown secret), and a record it returns is in the table,
    carries the digest and is unrevoked. *)
Theorem lookup_answers_with_an_unrevoked_record
    (Profile : Type) (env : Env Profile) (token : string) (w : World) :
  exists found,
    AuthRepository.findRefreshTokenByToken env token w = (Ok found, w)
    /\ (found = None <->
        forall r, In r (refresh_tokens w) -> tokenHash r = hashToken env token ->
                  revokedAt r <> None)
    /\ (forall r, found = Some r ->
          In r (refresh_tokens w) /\ tokenHash r = hashToken env token
          /\ revokedAt r = None).
Proof.
  destruct (find_cases Profile env token w) as [H | [stored H]].
  - exists None. split; [apply findRefreshTokenByToken_run; exact H|]. split.
    + split; [|reflexivity]. intros _ r Hin Hh Hr.
      rewrite findRefreshTokenByToken_eq in H. cbn [fst] in H.
      assert (Hnone : find (holds (and (eq_tokenHash (hashToken env token))
                                       isNull_revokedAt)) (refresh_tokens w) = None)
        by congruence.
      apply (find_none _ _ Hnone) in Hin. simpl in Hin.
      rewrite Hh, String.eqb_refl, Hr in Hin. discriminate Hin.
    + intros r E. discriminate E.
  - exists (Some stored). split; [apply findRefreshTokenByToken_run; exact H|].
    destruct (found_is_active Profile env token w stored H) as (Hin & Hh & Hr). split.
    + split; [discriminate|]. intros Hall. exfalso. exact (Hall stored Hin Hh Hr).
    + intros r E. injection E as E. subst r. auto.
Qed.


(** ** Mass revocation *)

Lemma mass_revocation_rows (Profile : Type) (env : Env Profile) (owner : string) (w : World) :
  revokeAllUserRefreshTokens env owner w =
  (Ok tt,
   {| refresh_tokens :=
        map (fun r => if holds (and (eq_userId owner) isNull_revokedAt) r
                      then assign {| set_revokedAt := Some (Some (now_at env (clock w)));
                                     set_replacedByToken := None |} r
                      else r)
            (refresh_tokens w);
      journal :=
        journal w ++ [UPDATE {| set_revokedAt := Some (Some (now_at env (clock w)));
                                set_replacedByToken := None |}
                             (and (eq_userId owner) isNull_revokedAt)];
      clock := S (clock w);
      entropy := entropy w;
      uuids := uuids w |}).
Proof. reflexivity. Qed.

Section MassRevocation.

Variable owner : string.
Variable t : Date.

Let sweep (r : RefreshToken) : RefreshToken :=
  if holds (and (eq_userId owner) isNull_revokedAt) r
  then assign {| set_revokedAt := Some (Some t); set_replacedByToken := None |} r
  else r.

Lemma sweep_rowwise (rs : list RefreshToken) :
  Forall2
    (fun r r' =>
       if String.eqb (userId r) owner && active r
       then r' = mkRefreshToken (id r) (userId r) (tokenHash r) (expiresAt r)
                   (Some t) (replacedByToken r)
                   (createdAt r) (userAgent r) (ipAddress r)
       else r' = r)
    rs (map sweep rs).
Proof.
  induction rs as [|r rs IH]; simpl; constructor; [|exact IH].
  unfold sweep, active. simpl.
  destruct (String.eqb (userId r) owner && negb (isSome (revokedAt r))); reflexivity.
Qed.

Lemma sweep_inactive (r : RefreshToken) :
  String.eqb (userId (sweep r)) owner && active (sweep r) = false.
Proof.
  unfold sweep, active. simpl.
  destruct (String.eqb (userId r) owner) eqn:E; destruct (revokedAt r) eqn:Hr; simpl;
    rewrite ?E, ?Hr; reflexivity.
Qed.

Lemma sweep_leaves_none (rs : list RefreshToken) :
  active_of owner (map sweep rs) = [].
Proof.
  induction rs as [|r rs IH]; simpl; [reflexivity|].
  rewrite sweep_inactive. exact IH.
Qed.

Lemma sweep_other (other : string) (rs : list RefreshToken) :
  other <> owner -> active_of other (map sweep rs) = active_of other rs.
Proof.
  intros Ho. induction rs as [|r rs IH]; simpl; [reflexivity|].
  rewrite IH. unfold sweep. simpl.
  destruct (String.eqb_spec (userId r) owner) as [E|E]; simpl; [|reflexivity].
  destruct (revokedAt r) eqn:Hr; simpl; [reflexivity|].
  destruct (String.eqb_spec (userId r) other) as [E'|E']; [congruence|].
  reflexivity.
Qed.

End MassRevocation.

Lemma sweep_twice (owner : string) (t t2 : Date) (rs : list RefreshToken) :
  map (fun r => if holds (and (eq_userId owner) isNull_revokedAt) r
                then assign {| set_revokedAt := Some (Some t2);
                               set_replacedByToken := None |} r
                else r)
      (map (fun r => if holds (and (eq_userId owner) isNull_revokedAt) r
                     then assign {| set_revokedAt := Some (Some t);
                                    set_replacedByToken := None |} r
                     else r) rs) =
  map (fun r => if holds (and (eq_userId owner) isNull_revokedAt) r
                then assign {| set_revokedAt := Some (Some t);
                               set_replacedByToken := None |} r
                else r) rs.
Proof.
  rewrite map_map. apply map_ext. intros r. simpl.
  destruct (String.eqb (userId r) owner) eqn:E; destruct (revokedAt r) eqn:Hr; simpl;
    rewrite ?E, ?Hr; reflexivity.
Qed.

(** [revokeAllUserRefreshTokens] never fails.  Row by row, an unrevoked record
    of the owner gets [revokedAt] set to the time of the call and keeps every
    other column, [replacedByToken] included; every other row is left as it
    is.  Afterwards the owner has no active record, the active records of
    every other user are the same as before, and a second call changes no
    row. *)
Theorem revokeAll_revokes_the_owners_active_records_only
    (Profile : Type) (env : Env Profile) (owner : string) (w : World) :
  exists w',
    revokeAllUserRefreshTokens env owner w = (Ok tt, w')
    /\ Forall2
         (fun r r' =>
            if String.eqb (userId r) owner && active r
            then r' = mkRefreshToken (id r) (userId r) (tokenHash r) (expiresAt r)
                        (Some (now_at env (clock w))) (replacedByToken r)
                        (createdAt r) (userAgent r) (ipAddress r)
            else r' = r)
         (refresh_tokens w) (refresh_tokens w')
    /\ active_of owner (refresh_tokens w') = []
    /\ (forall other, other <> owner ->
          active_of other (refresh_tokens w') = active_of other (refresh_tokens w))
    /\ refresh_tokens (snd (revokeAllUserRefreshTokens env owner w')) = refresh_tokens w'.
Proof.
  eexists. split; [apply mass_revocation_rows|].
  cbn [refresh_tokens]. split; [apply sweep_rowwise|].
  split; [apply sweep_leaves_none|].
  split; [intros other Ho; apply sweep_other; exact Ho|].
  rewrite mass_revocation_rows. cbn [snd refresh_tokens clock]. apply sweep_twice.
Qed.

(** ** The clean-up *)

Lemma find_filter_survivor (A : Type) (p keep : A -> bool) (l : list A) (x : A) :
  find p l = Some x -> keep x = true -> find p (filter keep l) = Some x.
Proof.
  induction l as [|a l IH]; simpl; [discriminate|].
  destruct (p a) eqn:Hp.
  - intros E Hk. injection E as E. subst a. rewrite Hk. simpl. rewrite Hp. reflexivity.
  - intros E Hk. destruct (keep a); simpl; [rewrite Hp|]; apply IH; assumption.
Qed.

Lemma find_filter_none (A : Type) (p keep : A -> bool) (l : list A) :
  find p l = None -> find p (filter keep l) = None.
Proof.
  induction l as [|a l IH]; simpl; [reflexivity|].
  destruct (p a) eqn:Hp; [discriminate|].
  intros E. destruct (keep a); simpl; [rewrite Hp|]; apply IH; exact E.
Qed.

Lemma NoDup_map_filter (A B : Type) (f : A -> B) (keep : A -> bool) (l : list A) :
  NoDup (map f l) -> NoDup (map f (filter keep l)).
Proof.
  induction l as [|a l IH]; simpl; intros H; [constructor|].
  inversion H as [|? ? Ha Hl]; subst.
  destruct (keep a); simpl; [|apply IH; exact Hl].
  constructor; [|apply IH; exact Hl].
  intros F. apply Ha. apply in_map_iff in F. destruct F as (x & E & Hx).
  apply filter_In in Hx. destruct Hx as [Hx _].
  rewrite <- E. apply in_map. exact Hx.
Qed.

Lemma cleanup_rows (Profile : Type) (env : Env Profile) (w : World) :
  cleanupExpiredTokens env w =
  (Ok tt,
   {| refresh_tokens :=
        filter (fun r => negb (holds (lt_expiresAt (now_at env (clock w))) r))
               (refresh_tokens w);
      journal := journal w ++ [DELETE (lt_expiresAt (now_at env (clock w)))];
      clock := S (clock w);
      entropy := entropy w;
      uuids := uuids w |}).
Proof. reflexivity. Qed.

(** [cleanupExpiredTokens] never fails.  It removes the records whose
    [expiresAt] is strictly before the time of the call, revoked or not, and
    nothing else: a record is in the table afterwards exactly when it was
    there before and has not lapsed.  The constraints of the table are kept.
    A secret whose record the lookup returned before and that has not lapsed
    is still answered with that record, and a secret that was not found
    before is not found afterwards. *)
Theorem cleanup_removes_exactly_the_lapsed_records
    (Profile : Type) (env : Env Profile) (w : World) :
  exists w',
    cleanupExpiredTokens env w = (Ok tt, w')
    /\ (forall r, In r (refresh_tokens w') <->
                  In r (refresh_tokens w) /\ now_at env (clock w) <= expiresAt r)
    /\ (well_formed (refresh_tokens w) -> well_formed (refresh_tokens w'))
    /\ (forall token stored,
          fst (AuthRepository.findRefreshTokenByToken env token w) = Ok (Some stored) ->
          now_at env (clock w) <= expiresAt stored ->
          fst (AuthRepository.findRefreshTokenByToken env token w') = Ok (Some stored))
    /\ (forall token,
          fst (AuthRepository.findRefreshTokenByToken env token w) = Ok None ->
          fst (AuthRepository.findRefreshTokenByToken env token w') = Ok None).
Proof.
  eexists. split; [apply cleanup_rows|]. cbn [refresh_tokens].
  split; [|split; [|split]].
  - intros r. rewrite filter_In. simpl.
    destruct (Z.ltb_spec (expiresAt r) (now_at env (clock w))); simpl.
    + split; [intros [_ F]; discriminate F | intros [_ F]; lia].
    + split; [intros [Hin _]; split; [exact Hin | lia] | intros [Hin _]; split; auto].
  - intros [Hi Hd]. split; apply NoDup_map_filter; assumption.
  - intros token stored Hfound Hlive.
    rewrite findRefreshTokenByToken_eq in *. cbn [fst refresh_tokens] in *.
    f_equal. apply find_filter_survivor; [congruence|].
    simpl. destruct (Z.ltb_spec (expiresAt stored) (now_at env (clock w))); [lia|reflexivity].
  - intros token Hnone.
    rewrite findRefreshTokenByToken_eq in *. cbn [fst refresh_tokens] in *.
    f_equal. apply find_filter_none. congruence.
Qed.

(** ** Issuing a record *)

Lemma find_snoc_fresh (A : Type) (p : A -> bool) (l : list A) (a : A) :
  (forall x, In x l -> p x = false) -> p a = true -> find p (l ++ [a]) = Some a.
Proof.
  induction l as [|x l IH]; simpl; intros Hl Ha.
  - rewrite Ha. reflexivity.
  - rewrite (Hl x (or_introl eq_refl)). apply IH; [|exact Ha].
    intros y Hy. apply Hl. right. exact Hy.
Qed.

(** In a table extended by an accepted row, the lookup by that row's digest
    returns that row, whatever revocations were written to the older rows. *)
Lemma lookup_of_accepted_row (Profile : Type) (env : Env Profile) (token : string)
    (w : World) (olds : list RefreshToken) (fresh : RefreshToken) :
  refresh_tokens w = olds ++ [fresh] ->
  ~ In (tokenHash fresh) (map tokenHash olds) ->
  tokenHash fresh = hashToken env token ->
  revokedAt fresh = None ->
  AuthRepository.findRefreshTokenByToken env token w = (Ok (Some fresh), w).
Proof.
  intros Hrows Hnew Hh Hr. rewrite findRefreshTokenByToken_eq, Hrows. f_equal. f_equal.
  apply find_snoc_fresh.
  - intros x Hx. simpl. destruct (String.eqb_spec (tokenHash x) (hashToken env token)) as [E|E];
      [|reflexivity].
    exfalso. apply Hnew. rewrite Hh, <- E. apply in_map. exact Hx.
  - simpl. rewrite Hh, String.eqb_refl, Hr. reflexivity.
Qed.

(** [createRefreshToken] either appends one row and returns it, or fails with
    a fault of the database and leaves the rows as they were.  The row it
    returns holds the digest of the secret, never the secret itself given to
    the call, the given owner and expiry, and null [revokedAt] and
    [replacedByToken]; a lookup of the secret right afterwards returns that
    row. *)
Theorem createRefreshToken_row_is_found_by_its_secret
    (Profile : Type) (env : Env Profile)
    (token owner : string) (expires : Date) (ua ip : option string)
    (w w' : World) (res : Result RefreshToken) :
  createRefreshToken env token owner expires ua ip w = (res, w') ->
  match res with
  | Ok r =>
      refresh_tokens w' = refresh_tokens w ++ [r]
      /\ r = mkRefreshToken (gen_random_uuid env (uuids w)) owner (hashToken env token)
                            expires None None (now_at env (clock w)) ua ip
      /\ AuthRepository.findRefreshTokenByToken env token w' = (Ok (Some r), w')
  | Throw e =>
      refresh_tokens w' = refresh_tokens w /\ exists f, e = DatabaseError f
  end.
Proof.
  rewrite createRefreshToken_run. cbv zeta.
  destruct (violation _ _) as [f|] eqn:Hv; intros E; inversion E; subst; clear E.
  - split; [reflexivity | exists f; reflexivity].
  - split; [reflexivity|]. split; [reflexivity|].
    apply violation_None in Hv. destruct Hv as (_ & _ & Hnew).
    apply (lookup_of_accepted_row _ env token _ (refresh_tokens w)
             (mkRefreshToken (gen_random_uuid env (uuids w)) owner (hashToken env token)
                             expires None None (now_at env (clock w)) ua ip));
      [reflexivity | exact Hnew | reflexivity | reflexivity].
Qed.

(** The call of Ann's first login inserts a row that her secret finds. *)
Lemma createRefreshToken_row_is_found_witness :
  exists r w',
    createRefreshToken Demo.env "secret" "u-ann" 5000 None None Demo.empty = (Ok r, w')
    /\ AuthRepository.findRefreshTokenByToken Demo.env "secret" w' = (Ok (Some r), w').
Proof.
  pose proof (createRefreshToken_row_is_found_by_its_secret unit Demo.env
                "secret" "u-ann" 5000 None None Demo.empty
                (snd (createRefreshToken Demo.env "secret" "u-ann" 5000 None None
                                         Demo.empty))
                (fst (createRefreshToken Demo.env "secret" "u-ann" 5000 None None
                                         Demo.empty))
                eq_refl) as H.
  vm_compute in H. destruct H as (_ & _ & Hfind).
  eexists. eexists. split; [vm_compute; reflexivity | exact Hfind].
Defined.

(** ** Login *)

(** A login that succeeds was accepted by the credential check, appends
    exactly one row to the table and changes no other: an unrevoked record of
    the user with a null [replacedByToken], holding the digest of the secret
    that is returned, so that a lookup of this secret right afterwards
    returns the record.  A login that fails leaves the rows as they were: it
    fails either with what the credential check threw, before anything is
    drawn or written, or with a fault of the database on the insert. *)
Theorem login_appends_one_active_record_or_nothing
    (Profile : Type) (env : Env Profile)
    (email password : string) (ua ip : option string)
    (w w' : World) (res : Result (Session Profile)) :
  AuthService.login env email password ua ip w = (res, w') ->
  match res with
  | Ok s =>
      loginQuery env email password = inr (user s, profile s)
      /\ exists r,
           refresh_tokens w' = refresh_tokens w ++ [r]
           /\ userId r = Users.id (user s)
           /\ tokenHash r = hashToken env (refresh_token s)
           /\ revokedAt r = None /\ replacedByToken r = None
           /\ userAgent r = ua /\ ipAddress r = ip
           /\ AuthRepository.findRefreshTokenByToken env (refresh_token s) w'
              = (Ok (Some r), w')
  | Throw e =>
      refresh_tokens w' = refresh_tokens w
      /\ ((loginQuery env email password = inl e /\ w' = w)
          \/ exists f, e = DatabaseError f)
  end.
Proof.
  destruct (loginQuery env email password) as [e|[usr prof]] eqn:Hq.
  - unfold AuthService.login, AuthRepository.login, bind, throw. rewrite Hq.
    intros E. inversion E; subst. split; [reflexivity|]. left. split; reflexivity.
  - rewrite (login_run Profile env email password ua ip w usr prof Hq). cbv zeta.
    destruct (violation _ _) as [f|] eqn:Hv; intros E; inversion E; subst; clear E.
    + split; [reflexivity|]. right. exists f. reflexivity.
    + split; [reflexivity|].
      exists (minted env (clock w) (entropy w) (uuids w) (Users.id usr) ua ip).
      cbn [refresh_tokens user refresh_token].
      repeat (split; [reflexivity|]).
      apply violation_None in Hv. destruct Hv as (_ & _ & Hnew).
      apply (lookup_of_accepted_row _ env _ _ (refresh_tokens w)
               (minted env (clock w) (entropy w) (uuids w) (Users.id usr) ua ip));
        [reflexivity | exact Hnew | reflexivity | reflexivity].
Qed.

(** Ann's login on the empty table. *)
Lemma login_appends_one_active_record_witness :
  exists s r w',
    AuthService.login Demo.env "ann@example.org" "pw" None None Demo.empty = (Ok s, w')
    /\ refresh_tokens w' = [r]
    /\ AuthRepository.findRefreshTokenByToken Demo.env (refresh_token s) w'
       = (Ok (Some r), w').
Proof.
  pose proof (login_appends_one_active_record_or_nothing unit Demo.env
                "ann@example.org" "pw" None None Demo.empty
                (snd (AuthService.login Demo.env "ann@example.org" "pw" None None
                                        Demo.empty))
                (fst (AuthService.login Demo.env "ann@example.org" "pw" None None
                                        Demo.empty))
                eq_refl) as H.
  vm_compute in H. destruct H as (_ & r & Hrows & _ & _ & _ & _ & _ & _ & Hfind).
  eexists. exists r. eexists. split; [vm_compute; reflexivity|].
  split; [exact Hrows | exact Hfind].
Defined.

(** ** Outcomes of a refresh *)

Section RefreshOutcomes.

Variable Profile : Type.
Variable env : Env Profile.

(** What a successful [refreshTokens] went through. *)
Lemma refreshTokens_Ok_inv (token : string) (ua ip : option string)
    (w w' : World) (s : Session Profile) :
  AuthService.refreshTokens env token ua ip w = (Ok s, w') ->
  exists stored,
    fst (AuthRepository.findRefreshTokenByToken env token w) = Ok (Some stored)
    /\ now_at env (clock w) <= expiresAt stored
    /\ getUserById env (userId stored) = Some (user s)
    /\ getProfileById env (Users.id (user s)) = Some (profile s)
    /\ refresh_token s = randomBytes32_base64url env (entropy w)
    /\ violation (minted env (S (clock w)) (entropy w) (uuids w) (Users.id (user s)) ua ip)
                 (refresh_tokens w) = None
    /\ refresh_tokens w' =
       revoke_in (now_at env (S (S (S (clock w)))))
                 (or_null (Some (gen_random_uuid env (uuids w)))) (id stored)
                 (refresh_tokens w)
       ++ [minted env (S (clock w)) (entropy w) (uuids w) (Users.id (user s)) ua ip]
    /\ journal w' =
       journal w
       ++ [INSERT (values_of (minted env (S (clock w)) (entropy w) (uuids w)
                                     (Users.id (user s)) ua ip));
           UPDATE (revocation (now_at env (S (S (S (clock w)))))
                              (or_null (Some (gen_random_uuid env (uuids w)))))
                  (eq_id (id stored))].
Proof.
  destruct (find_cases Profile env token w) as [H | [stored H]].
  { rewrite (refreshTokens_not_found Profile env token ua ip w H). discriminate. }
  rewrite (refreshTokens_found Profile env token ua ip w stored H). unfold_queries.
  destruct (Z.gtb_spec (now_at env (clock w)) (expiresAt stored)) as [Hlate|Hlive];
    [discriminate|].
  destruct (getUserById env (userId stored)) as [u|] eqn:Hu; [|discriminate].
  destruct (getProfileById env (Users.id u)) as [p|] eqn:Hp; [|discriminate].
  cbn [clock refresh_tokens journal entropy uuids
       v_userId v_tokenHash v_expiresAt v_userAgent v_ipAddress].
  change (violation _ (refresh_tokens w))
    with (violation (minted env (S (clock w)) (entropy w) (uuids w) (Users.id u) ua ip)
                    (refresh_tokens w)).
  destruct (violation _ _) eqn:Hv; [discriminate|].
  intros E. inversion E; subst; clear E. cbn [user profile refresh_token].
  exists stored. repeat (split; [assumption || reflexivity|]).
  split; [|cbn [journal]; rewrite <- app_assoc; reflexivity].
  destruct (found_is_active Profile env token w stored H) as (Hin & _ & _).
  transitivity
    (revoke_in (now_at env (S (S (S (clock w)))))
       (or_null (Some (gen_random_uuid env (uuids w)))) (id stored)
       (refresh_tokens w ++
          [minted env (S (clock w)) (entropy w) (uuids w) (Users.id u) ua ip]));
    [reflexivity|].
  rewrite revoke_in_app. f_equal. apply revoke_in_other.
  simpl. intros [F|[]].
  apply violation_None in Hv. destruct Hv as (_ & Hnew & _).
  apply Hnew. simpl. rewrite F. apply in_map. exact Hin.
Qed.

(** What a failed [refreshTokens] left behind. *)
Lemma refreshTokens_Throw_inv (token : string) (ua ip : option string)
    (w w' : World) (e : Exn) :
  AuthService.refreshTokens env token ua ip w = (Throw e, w') ->
  refresh_tokens w' = refresh_tokens w
  /\ (journal w' = journal w \/ exists v, journal w' = journal w ++ [INSERT v]).
Proof.
  destruct (find_cases Profile env token w) as [H | [stored H]].
  { rewrite (refreshTokens_not_found Profile env token ua ip w H).
    intros E. inversion E; subst. split; [reflexivity | left; reflexivity]. }
  rewrite (refreshTokens_found Profile env token ua ip w stored H). unfold_queries.
  destruct (Z.gtb _ _);
    [intros E; inversion E; subst; split; [reflexivity | left; reflexivity]|].
  destruct (getUserById _ _) as [u|];
    [|intros E; inversion E; subst; split; [reflexivity | left; reflexivity]].
  destruct (getProfileById _ _) as [p|];
    [|intros E; inversion E; subst; split; [reflexivity | left; reflexivity]].
  simpl. destruct (violation _ _); simpl; intros E; inversion E; subst.
  split; [reflexivity|]. right. eexists. reflexivity.
Qed.

End RefreshOutcomes.



(** Whenever [refreshTokens] succeeds, the secret it returns is usable: a
    lookup of it right afterwards returns the record just inserted, which is
    unrevoked, belongs to the user returned with the session and is the last
    row of the table; the table has grown by exactly that row. *)
Theorem refreshed_secret_is_found
    (Profile : Type) (env : Env Profile)
    (token : string) (ua ip : option string) (w w' : World) (s : Session Profile) :
  AuthService.refreshTokens env token ua ip w = (Ok s, w') ->
  exists olds fresh,
    refresh_tokens w' = olds ++ [fresh]
    /\ List.length olds = List.length (refresh_tokens w)
    /\ AuthRepository.findRefreshTokenByToken env (refresh_token s) w'
       = (Ok (Some fresh), w')
    /\ userId fresh = Users.id (user s)
    /\ revokedAt fresh = None /\ replacedByToken fresh = None.
Proof.
  intros H.
  destruct (refreshTokens_Ok_inv Profile env token ua ip w w' s H)
    as (stored & _ & _ & _ & _ & Htok & Hv & Hrows & _).
  eexists. eexists. split; [exact Hrows|].
  split; [unfold revoke_in; apply length_map|].
  split; [|repeat split].
  apply violation_None in Hv. destruct Hv as (_ & _ & Hnew).
  apply (lookup_of_accepted_row _ env _ _ _ _ Hrows).
  - rewrite revoke_in_digests. exact Hnew.
  - simpl. rewrite Htok. reflexivity.
  - reflexivity.
Qed.

(** Ann's first rotation returns a secret that finds the new record. *)
Lemma refreshed_secret_is_found_witness :
  exists s w' fresh,
    AuthService.refreshTokens Demo.env "secret" None None Demo.logged_in = (Ok s, w')
    /\ AuthRepository.findRefreshTokenByToken Demo.env (refresh_token s) w'
       = (Ok (Some fresh), w').
Proof.
  destruct (refreshed_secret_is_found unit Demo.env "secret" None None Demo.logged_in
              (snd (AuthService.refreshTokens Demo.env "secret" None None Demo.logged_in))
              (mkSession Demo.ann tt "u-ann:admin" "secretI"))
    as (olds & fresh & _ & _ & Hfind & _).
  - vm_compute. reflexivity.
  - eexists. eexists. exists fresh. split; [vm_compute; reflexivity | exact Hfind].
Defined.

(** ** Invariants of the traffic *)

Lemma later_version_refl (r : RefreshToken) : later_version r r.
Proof. unfold later_version. repeat split; auto. Qed.

Lemma later_version_trans (a b c : RefreshToken) :
  later_version a b -> later_version b c -> later_version a c.
Proof.
  unfold later_version.
  intros (A1 & A2 & A3 & A4 & A5 & A6 & A7 & A8) (B1 & B2 & B3 & B4 & B5 & B6 & B7 & B8).
  repeat split; try congruence. auto.
Qed.

Lemma later_version_update (s : SetClause) (c : Cond) (r : RefreshToken) :
  (exists d, set_revokedAt s = Some (Some d)) ->
  later_version r (if holds c r then assign s r else r).
Proof.
  intros [d Hd]. destruct (holds c r); [|apply later_version_refl].
  unfold later_version, assign. simpl. rewrite Hd.
  repeat split. intros _. discriminate.
Qed.

Lemma step_shape_same (rs : list RefreshToken) : step_shape rs rs.
Proof.
  exists (fun r => r), []. rewrite map_id, app_nil_r.
  split; [reflexivity|]. split; [apply later_version_refl | left; reflexivity].
Qed.

Lemma step_shape_update (s : SetClause) (c : Cond) (rs : list RefreshToken) :
  (exists d, set_revokedAt s = Some (Some d)) ->
  step_shape rs (map (fun r => if holds c r then assign s r else r) rs).
Proof.
  intros Hs. exists (fun r => if holds c r then assign s r else r), [].
  rewrite app_nil_r. split; [reflexivity|].
  split; [intros r; apply later_version_update; exact Hs | left; reflexivity].
Qed.

Lemma step_shape_well_formed (rs rs' : list RefreshToken) :
  step_shape rs rs' -> well_formed rs -> well_formed rs'.
Proof.
  intros (g & added & E & Hg & Hadded) [Hi Hd]. subst rs'.
  assert (Eid : map id (map g rs) = map id rs).
  { rewrite map_map. apply map_ext. intros r. apply (Hg r). }
  assert (Edig : map tokenHash (map g rs) = map tokenHash rs).
  { rewrite map_map. apply map_ext. intros r. apply (Hg r). }
  destruct Hadded as [E | (a & E & Hv)]; subst added.
  - rewrite app_nil_r. split; [rewrite Eid | rewrite Edig]; assumption.
  - apply violation_None in Hv. destruct Hv as (_ & Hnid & Hndig).
    split; rewrite map_app; [rewrite Eid | rewrite Edig]; apply NoDup_snoc; assumption.
Qed.

Lemma step_shape_persists (rs rs' : list RefreshToken) (r : RefreshToken) :
  step_shape rs rs' -> In r rs -> exists r', In r' rs' /\ later_version r r'.
Proof.
  intros (g & added & E & Hg & _) Hin. subst rs'. exists (g r).
  split; [apply in_or_app; left; apply in_map; exact Hin | apply Hg].
Qed.

Lemma Request_eq_Cleanup (q : Request) : q = Cleanup \/ q <> Cleanup.
Proof. destruct q; [right | right | right | left | right]; congruence. Qed.

Section Traffic.

Variable Profile : Type.
Variable env : Env Profile.

Lemma refresh_handler_cases (cookie : option string) (ua ip : option string) (w : World) :
  AuthController.refresh env cookie ua ip w =
    (Throw (AppError ERROR_MESSAGES.AUTH_REFRESH_TOKEN_NOT_FOUND 401
                     ERROR_CODES.AUTH_REFRESH_TOKEN_NOT_FOUND), w)
  \/ exists token, cookie = Some token /\ token <> EmptyString
       /\ AuthController.refresh env cookie ua ip w =
          AuthService.refreshTokens env token ua ip w.
Proof.
  destruct cookie as [token|]; [|left; reflexivity].
  unfold AuthController.refresh, truthy.
  destruct (String.eqb_spec token EmptyString); [left; reflexivity|].
  right. exists token. auto.
Qed.

Lemma logout_handler_cases (cookie : option string) (w : World) :
  AuthController.logout env cookie w = (Ok tt, w)
  \/ exists token, cookie = Some token /\ token <> EmptyString
       /\ AuthController.logout env cookie w = AuthService.logout env token w.
Proof.
  destruct cookie as [token|]; [|left; reflexivity].
  unfold AuthController.logout, truthy.
  destruct (String.eqb_spec token EmptyString); [left; reflexivity|].
  right. exists token. auto.
Qed.

Lemma login_step (email password : string) (ua ip : option string) (w : World) :
  step_shape (refresh_tokens w)
             (refresh_tokens (snd (AuthService.login env email password ua ip w))).
Proof.
  destruct (loginQuery env email password) as [e|[usr prof]] eqn:Hq.
  - unfold AuthService.login, AuthRepository.login, bind, throw. rewrite Hq.
    apply step_shape_same.
  - rewrite (login_run Profile env email password ua ip w usr prof Hq). cbv zeta.
    destruct (violation _ _) eqn:Hv; cbn [snd refresh_tokens].
    + apply step_shape_same.
    + eexists (fun r => r), [_]. rewrite map_id. split; [reflexivity|].
      split; [apply later_version_refl|]. right. eexists. split; [reflexivity | exact Hv].
Qed.

Lemma refreshTokens_step (token : string) (ua ip : option string) (w : World) :
  step_shape (refresh_tokens w)
             (refresh_tokens (snd (AuthService.refreshTokens env token ua ip w))).
Proof.
  destruct (AuthService.refreshTokens env token ua ip w) as [[s|e] w'] eqn:H;
    cbn [snd].
  - destruct (refreshTokens_Ok_inv Profile env token ua ip w w' s H)
      as (stored & _ & _ & _ & _ & _ & Hv & Hrows & _).
    rewrite Hrows. unfold revoke_in.
    eexists _, [_]. split; [reflexivity|]. split.
    + intros r. apply later_version_update. eexists. reflexivity.
    + right. eexists. split; [reflexivity | exact Hv].
  - destruct (refreshTokens_Throw_inv Profile env token ua ip w w' e H) as [Hr _].
    rewrite Hr. apply step_shape_same.
Qed.

Lemma logout_step (token : string) (w : World) :
  step_shape (refresh_tokens w) (refresh_tokens (snd (AuthService.logout env token w))).
Proof.
  destruct (find_cases Profile env token w) as [H | [stored H]].
  - rewrite (logout_not_found Profile env token w H). apply step_shape_same.
  - rewrite (logout_found Profile env token w stored H). cbn [snd refresh_tokens].
    unfold revoke_in. apply step_shape_update. eexists. reflexivity.
Qed.

(** Every request other than the clean-up is such a step. *)
Lemma handle_step (q : Request) (w : World) :
  q <> Cleanup ->
  step_shape (refresh_tokens w) (refresh_tokens (handle env q w)).
Proof.
  intros Hq. destruct q as [email password ua ip | cookie ua ip | cookie | | owner];
    cbn [handle].
  - apply login_step.
  - destruct (refresh_handler_cases cookie ua ip w) as [E | (token & _ & _ & E)];
      rewrite E; [apply step_shape_same | apply refreshTokens_step].
  - destruct (logout_handler_cases cookie w) as [E | (token & _ & _ & E)];
      rewrite E; [apply step_shape_same | apply logout_step].
  - contradiction.
  - rewrite mass_revocation_rows. cbn [snd refresh_tokens].
    apply step_shape_update. eexists. reflexivity.
Qed.

Lemma handle_keeps_well_formed (q : Request) (w : World) :
  well_formed (refresh_tokens w) -> well_formed (refresh_tokens (handle env q w)).
Proof.
  intros Hwf. destruct (Request_eq_Cleanup q) as [E|E].
  - subst q. cbn [handle]. rewrite cleanup_rows. cbn [snd refresh_tokens].
    destruct Hwf as [Hi Hd]. split; apply NoDup_map_filter; assumption.
  - apply (step_shape_well_formed (refresh_tokens w)); [apply handle_step; exact E|exact Hwf].
Qed.

Lemma handle_all_keeps_well_formed (qs : list Request) (w : World) :
  well_formed (refresh_tokens w) ->
  well_formed (refresh_tokens (handle_all env qs w)).
Proof.
  revert w. induction qs as [|q qs IH]; intros w Hwf; [exact Hwf|].
  apply (IH (handle env q w)). apply handle_keeps_well_formed. exact Hwf.
Qed.

Lemma handle_all_persists (qs : list Request) (w : World) (r : RefreshToken) :
  ~ In Cleanup qs ->
  In r (refresh_tokens w) ->
  exists r', In r' (refresh_tokens (handle_all env qs w)) /\ later_version r r'.
Proof.
  revert w r. induction qs as [|q qs IH]; intros w r Hq Hin.
  - exists r. split; [exact Hin | apply later_version_refl].
  - assert (Hne : q <> Cleanup) by (intros E; apply Hq; left; exact E).
    destruct (step_shape_persists _ _ r (handle_step q w Hne) Hin) as (r1 & Hin1 & L1).
    destruct (IH (handle env q w) r1) as (r' & Hin' & L'); [|exact Hin1|].
    + intros F. apply Hq. right. exact F.
    + exists r'. split; [exact Hin' | exact (later_version_trans _ _ _ L1 L')].
Qed.

(** A record that is revoked stays refused: after any traffic without
    clean-up every record with its digest is revoked. *)
Lemma revoked_stays_revoked (qs : list Request) (w : World) (token : string)
    (r : RefreshToken) :
  well_formed (refresh_tokens w) ->
  In r (refresh_tokens w) ->
  tokenHash r = hashToken env token ->
  revokedAt r <> None ->
  ~ In Cleanup qs ->
  forall x, In x (refresh_tokens (handle_all env qs w)) ->
            tokenHash x = hashToken env token -> revokedAt x <> None.
Proof.
  intros Hwf Hin Hh Hrev Hq x Hx Hxh.
  destruct (handle_all_persists qs w r Hq Hin) as (r' & Hin' & L).
  destruct (handle_all_keeps_well_formed qs w Hwf) as [_ Hd].
  assert (x = r').
  { apply (NoDup_map_eq _ _ tokenHash _ x r' Hd Hx Hin').
    destruct L as (_ & _ & L3 & _). congruence. }
  subst x. destruct L as (_ & _ & _ & _ & _ & _ & _ & L8). exact (L8 Hrev).
Qed.

End Traffic.

(** The unique constraints of the table are an invariant of the traffic:
    whatever requests arrive, in whatever order and with whatever outcome,
    a table whose ids and digests were pairwise distinct still has pairwise
    distinct ids and digests. *)
Theorem every_request_keeps_the_constraints
    (Profile : Type) (env : Env Profile) (qs : list Request) (w : World) :
  well_formed (refresh_tokens w) ->
  well_formed (refresh_tokens (handle_all env qs w)).
Proof. apply handle_all_keeps_well_formed. Qed.

(** Under traffic without clean-up no record is lost or rewritten: every
    record of the table is still there afterwards with the same id, owner,
    digest, expiry, creation time, user agent and address, and if it was
    revoked it still is. *)
Theorem records_persist_and_stay_revoked
    (Profile : Type) (env : Env Profile) (qs : list Request) (w : World)
    (r : RefreshToken) :
  ~ In Cleanup qs ->
  In r (refresh_tokens w) ->
  exists r', In r' (refresh_tokens (handle_all env qs w)) /\ later_version r r'.
Proof. apply handle_all_persists. Qed.

(** Ann logs in, rotates, the clean-up runs and the new secret is logged
    out. *)
Lemma every_request_keeps_the_constraints_witness :
  well_formed
    (refresh_tokens
       (handle_all Demo.env
          [POST_login "ann@example.org" "pw" None None;
           POST_refresh (Some "secret") None None;
           Cleanup;
           POST_logout (Some "secretI")]
          Demo.empty)).
Proof.
  apply (every_request_keeps_the_constraints unit Demo.env).
  split; constructor.
Defined.

(** Ann's first record after a rotation and a mass revocation. *)
Lemma records_persist_witness :
  exists r',
    In r' (refresh_tokens
             (handle_all Demo.env
                [POST_refresh (Some "secret") None None; RevokeAll "u-ann"]
                Demo.logged_in))
    /\ later_version
         (mkRefreshToken "id" "u-ann" "#secret" 604800000 None None 1000
                         (Some "curl/8") (Some "10.0.0.7")) r'.
Proof.
  apply (records_persist_and_stay_revoked unit Demo.env).
  - intros [F|[F|[]]]; discriminate F.
  - left. reflexivity.
Defined.

Section Retired.

Variable Profile : Type.
Variable env : Env Profile.

Lemma refused_when_all_revoked (token : string) (ua ip : option string) (w : World) :
  (forall x, In x (refresh_tokens w) -> tokenHash x = hashToken env token ->
             revokedAt x <> None) ->
  AuthService.refreshTokens env token ua ip w =
    (Throw (AppError ERROR_MESSAGES.AUTH_REFRESH_TOKEN_NOT_FOUND 401
                     ERROR_CODES.AUTH_REFRESH_TOKEN_NOT_FOUND), w)
  /\ AuthService.logout env token w = (Ok tt, w).
Proof.
  intros H. split; [apply refreshTokens_of_revoked; exact H|].
  apply logout_not_found. rewrite (revoked_is_not_found Profile env token w H). reflexivity.
Qed.

Lemma rotation_retires (token : string) (ua ip : option string) (w w1 : World)
    (s : Session Profile) :
  AuthService.refreshTokens env token ua ip w = (Ok s, w1) ->
  exists r, In r (refresh_tokens w1) /\ tokenHash r = hashToken env token
            /\ revokedAt r <> None.
Proof.
  intros H.
  destruct (refreshTokens_Ok_inv Profile env token ua ip w w1 s H)
    as (stored & Hfound & _ & _ & _ & _ & _ & Hrows & _).
  destruct (found_is_active Profile env token w stored Hfound) as (Hin & Hh & _).
  exists (assign (revocation (now_at env (S (S (S (clock w)))))
                             (or_null (Some (gen_random_uuid env (uuids w))))) stored).
  split; [|split; [exact Hh | discriminate]].
  rewrite Hrows. apply in_or_app. left. unfold revoke_in.
  apply in_map_iff. exists stored. split; [|exact Hin].
  simpl. rewrite String.eqb_refl. reflexivity.
Qed.

Lemma logout_retires (token : string) (w : World) (stored : RefreshToken) :
  fst (AuthRepository.findRefreshTokenByToken env token w) = Ok (Some stored) ->
  exists r, In r (refresh_tokens (snd (AuthService.logout env token w)))
            /\ tokenHash r = hashToken env token /\ revokedAt r <> None.
Proof.
  intros Hfound.
  destruct (found_is_active Profile env token w stored Hfound) as (Hin & Hh & _).
  rewrite (logout_found Profile env token w stored Hfound). cbn [snd refresh_tokens].
  exists (assign (revocation (now_at env (clock w)) None) stored).
  split; [|split; [exact Hh | discriminate]].
  unfold revoke_in. apply in_map_iff. exists stored. split; [|exact Hin].
  simpl. rewrite String.eqb_refl. reflexivity.
Qed.

End Retired.

(** Revocation is final.  On a table that satisfies its constraints, a secret
    whose record is revoked, however that happened, is refused by every
    later refresh as an unknown secret, and a later logout of it does
    nothing, whatever requests other than the clean-up arrive in between:
    no login, refresh, logout or mass revocation brings it back. *)
Theorem revoked_secret_is_refused_for_good
    (Profile : Type) (env : Env Profile) (qs : list Request) (w : World)
    (token : string) (r : RefreshToken) (ua ip : option string) :
  well_formed (refresh_tokens w) ->
  In r (refresh_tokens w) ->
  tokenHash r = hashToken env token ->
  revokedAt r <> None ->
  ~ In Cleanup qs ->
  AuthService.refreshTokens env token ua ip (handle_all env qs w) =
    (Throw (AppError ERROR_MESSAGES.AUTH_REFRESH_TOKEN_NOT_FOUND 401
                     ERROR_CODES.AUTH_REFRESH_TOKEN_NOT_FOUND), handle_all env qs w)
  /\ AuthService.logout env token (handle_all env qs w) = (Ok tt, handle_all env qs w).
Proof.
  intros Hwf Hin Hh Hrev Hq. apply refused_when_all_revoked.
  apply (revoked_stays_revoked Profile env qs w token r); assumption.
Qed.

(** The rotated record [a] of [Demo.stale] after a login of Bob and a
    rotation of Ann's live secret. *)
Lemma revoked_secret_is_refused_for_good_witness :
  AuthService.logout Demo.env "old"
    (handle_all Demo.env
       [POST_login "bob@example.org" "pw" None None;
        POST_refresh (Some "new") None None] Demo.stale)
  = (Ok tt,
     handle_all Demo.env
       [POST_login "bob@example.org" "pw" None None;
        POST_refresh (Some "new") None None] Demo.stale).
Proof.
  apply (revoked_secret_is_refused_for_good unit Demo.env
           [POST_login "bob@example.org" "pw" None None;
            POST_refresh (Some "new") None None]
           Demo.stale "old" (Demo.row "a" "u-ann" "old" 10 (Some 5) (Some "b"))
           None None).
  - split; vm_compute; repeat constructor; simpl; intuition discriminate.
  - left. reflexivity.
  - reflexivity.
  - discriminate.
  - intros [F|[F|[]]]; discriminate F.
Defined.

(** A secret is good for one rotation.  On a table that satisfies its
    constraints, once [refreshTokens] has succeeded with a secret, every
    later refresh presenting that secret again fails as an unknown secret and
    changes nothing, whatever requests other than the clean-up arrive in
    between. *)
Theorem rotated_secret_is_never_accepted_again
    (Profile : Type) (env : Env Profile) (qs : list Request) (w w1 : World)
    (token : string) (ua ip ua' ip' : option string) (s : Session Profile) :
  well_formed (refresh_tokens w) ->
  AuthService.refreshTokens env token ua ip w = (Ok s, w1) ->
  ~ In Cleanup qs ->
  AuthService.refreshTokens env token ua' ip' (handle_all env qs w1) =
    (Throw (AppError ERROR_MESSAGES.AUTH_REFRESH_TOKEN_NOT_FOUND 401
                     ERROR_CODES.AUTH_REFRESH_TOKEN_NOT_FOUND), handle_all env qs w1).
Proof.
  intros Hwf Hrun Hq.
  destruct (rotation_retires Profile env token ua ip w w1 s Hrun) as (r & Hin & Hh & Hrev).
  apply refused_when_all_revoked.
  apply (revoked_stays_revoked Profile env qs w1 token r); try assumption.
  apply (refreshTokens_keeps_well_formed Profile env token ua ip w w1 (Ok s) Hwf Hrun).
Qed.

(** Ann rotates her first secret; after a second rotation with the new
    secret the first one is still refused. *)
Lemma rotated_secret_witness :
  exists w2,
    AuthService.refreshTokens Demo.env "secret" None None w2 =
      (Throw (AppError ERROR_MESSAGES.AUTH_REFRESH_TOKEN_NOT_FOUND 401
                       ERROR_CODES.AUTH_REFRESH_TOKEN_NOT_FOUND), w2)
    /\ List.length (refresh_tokens w2) = 3%nat.
Proof.
  eexists. split.
  - apply (rotated_secret_is_never_accepted_again unit Demo.env
             [POST_refresh (Some "secretI") None None]
             Demo.logged_in
             (snd (AuthService.refreshTokens Demo.env "secret" None None Demo.logged_in))
             "secret" None None None None
             (mkSession Demo.ann tt "u-ann:admin" "secretI")).
    + split; vm_compute; repeat constructor; simpl; intuition discriminate.
    + vm_compute. reflexivity.
    + intros [F|[]]; discriminate F.
  - vm_compute. reflexivity.
Defined.

(** Logout is final.  On a table that satisfies its constraints, after the
    logout of a secret that the lookup found, every later refresh presenting
    that secret fails as an unknown secret and changes nothing, whatever
    requests other than the clean-up arrive in between. *)
Theorem logged_out_secret_is_never_accepted_again
    (Profile : Type) (env : Env Profile) (qs : list Request) (w : World)
    (token : string) (stored : RefreshToken) (ua ip : option string) :
  well_formed (refresh_tokens w) ->
  fst (AuthRepository.findRefreshTokenByToken env token w) = Ok (Some stored) ->
  ~ In Cleanup qs ->
  AuthService.refreshTokens env token ua ip
    (handle_all env qs (snd (AuthService.logout env token w))) =
    (Throw (AppError ERROR_MESSAGES.AUTH_REFRESH_TOKEN_NOT_FOUND 401
                     ERROR_CODES.AUTH_REFRESH_TOKEN_NOT_FOUND),
     handle_all env qs (snd (AuthService.logout env token w))).
Proof.
  intros Hwf Hfound Hq.
  destruct (logout_retires Profile env token w stored Hfound) as (r & Hin & Hh & Hrev).
  apply refused_when_all_revoked.
  apply (revoked_stays_revoked Profile env qs _ token r); try assumption.
  apply (logout_keeps_well_formed Profile env token w _
           (fst (AuthService.logout env token w)) Hwf).
  destruct (AuthService.logout env token w). reflexivity.
Qed.

(** Ann logs out right after her login, then logs in again. *)
Lemma logged_out_secret_witness :
  exists w2,
    AuthService.refreshTokens Demo.env "secret" None None w2 =
      (Throw (AppError ERROR_MESSAGES.AUTH_REFRESH_TOKEN_NOT_FOUND 401
                       ERROR_CODES.AUTH_REFRESH_TOKEN_NOT_FOUND), w2)
    /\ List.length (refresh_tokens w2) = 2%nat.
Proof.
  eexists. split.
  - apply (logged_out_secret_is_never_accepted_again unit Demo.env
             [POST_login "ann@example.org" "pw" None None]
             Demo.logged_in "secret"
             (mkRefreshToken "id" "u-ann" "#secret" 604800000 None None 1000
                             (Some "curl/8") (Some "10.0.0.7"))
             None None).
    + split; vm_compute; repeat constructor; simpl; intuition discriminate.
    + vm_compute. reflexivity.
    + intros [F|[]]; discriminate F.
  - vm_compute. reflexivity.
Defined.

(** ** What the endpoints send *)

Section Sent.

Variable Profile : Type.
Variable env : Env Profile.

Lemma endpoint_sends_point_writes (q : Request) (w : World) :
  is_endpoint q = true ->
  exists sent,
    journal (handle env q w) = journal w ++ sent /\ forallb point_write sent = true.
Proof.
  intros Hq. destruct q as [email password ua ip | cookie ua ip | cookie | | owner];
    try discriminate Hq; cbn [handle].
  - destruct (loginQuery env email password) as [e|[usr prof]] eqn:Hl.
    + unfold AuthService.login, AuthRepository.login, bind, throw. rewrite Hl.
      exists []. rewrite app_nil_r. split; reflexivity.
    + rewrite (login_run Profile env email password ua ip w usr prof Hl). cbv zeta.
      destruct (violation _ _); cbn [snd journal]; eexists; split; reflexivity.
  - destruct (refresh_handler_cases Profile env cookie ua ip w)
      as [E | (token & _ & _ & E)]; rewrite E.
    { exists []. rewrite app_nil_r. split; reflexivity. }
    destruct (AuthService.refreshTokens env token ua ip w) as [[s|e] w'] eqn:H;
      cbn [snd].
    + destruct (refreshTokens_Ok_inv Profile env token ua ip w w' s H)
        as (stored & _ & _ & _ & _ & _ & _ & _ & Hj).
      rewrite Hj. eexists. split; reflexivity.
    + destruct (refreshTokens_Throw_inv Profile env token ua ip w w' e H)
        as [_ [Hj | [v Hj]]]; rewrite Hj.
      * exists []. rewrite app_nil_r. split; reflexivity.
      * eexists. split; reflexivity.
  - destruct (logout_handler_cases Profile env cookie w)
      as [E | (token & _ & _ & E)]; rewrite E.
    { exists []. rewrite app_nil_r. split; reflexivity. }
    destruct (find_cases Profile env token w) as [H | [stored H]].
    + rewrite (logout_not_found Profile env token w H).
      exists []. rewrite app_nil_r. split; reflexivity.
    + rewrite (logout_found Profile env token w stored H). cbn [snd journal].
      eexists. split; reflexivity.
Qed.

Lemma endpoints_send_point_writes (qs : list Request) (w : World) :
  forallb is_endpoint qs = true ->
  exists sent,
    journal (handle_all env qs w) = journal w ++ sent
    /\ forallb point_write sent = true.
Proof.
  revert w. induction qs as [|q qs IH]; intros w Hqs.
  - exists []. rewrite app_nil_r. split; reflexivity.
  - simpl in Hqs. apply andb_true_iff in Hqs. destruct Hqs as [Hq Hqs].
    destruct (endpoint_sends_point_writes q w Hq) as (s1 & E1 & P1).
    destruct (IH (handle env q w) Hqs) as (s2 & E2 & P2).
    exists (s1 ++ s2). split.
    + change (handle_all env (q :: qs) w) with (handle_all env qs (handle env q w)).
      rewrite E2, E1, app_assoc. reflexivity.
    + rewrite forallb_app, P1, P2. reflexivity.
Qed.

End Sent.

(** The three endpoints only ever insert one row or revoke the row with one
    id: whatever login, refresh and logout requests arrive, the statements
    they send extend the journal by INSERTs and UPDATEs by id alone.  No
    DELETE and no UPDATE over all the records of a user is ever sent, so
    nothing reachable from the endpoints revokes a user's other sessions. *)
Theorem endpoints_never_delete_nor_revoke_in_bulk
    (Profile : Type) (env : Env Profile) (qs : list Request) (w : World) :
  forallb is_endpoint qs = true ->
  exists sent,
    journal (handle_all env qs w) = journal w ++ sent
    /\ forallb point_write sent = true.
Proof. apply endpoints_send_point_writes. Qed.

(** Ann logs in, rotates, replays her first secret and logs out. *)
Lemma endpoints_never_delete_witness :
  exists sent,
    journal (handle_all Demo.env
               [POST_login "ann@example.org" "pw" None None;
                POST_refresh (Some "secret") None None;
                POST_refresh (Some "secret") None None;
                POST_logout (Some "secretI")] Demo.empty)
    = journal Demo.empty ++ sent
    /\ forallb point_write sent = true.
Proof.
  apply (endpoints_never_delete_nor_revoke_in_bulk unit Demo.env).
  reflexivity.
Defined.

(** ** Counting active sessions *)


(** Revoking the one unrevoked record with a given id takes one active
    record from its owner and none from anybody else. *)
Lemma revoke_in_takes_one (now : Date) (by_ : option string) (owner : string)
    (stored : RefreshToken) (rs : list RefreshToken) :
  NoDup (map id rs) ->
  In stored rs ->
  revokedAt stored = None ->
  (List.length (active_of owner (revoke_in now by_ (id stored) rs))
   + (if String.eqb (userId stored) owner then 1 else 0))%nat
  = List.length (active_of owner rs).
Proof.
  induction rs as [|a rs IH]; intros Hnd Hin Hact; [contradiction|].
  inversion Hnd as [|? ? Ha Hrs]; subst.
  destruct (String.eqb_spec (id a) (id stored)) as [E|E].
  - assert (a = stored).
    { destruct Hin as [Hin|Hin]; [exact Hin|].
      exfalso. apply Ha. rewrite E. apply in_map. exact Hin. }
    subst a. simpl. rewrite String.eqb_refl.
    rewrite (revoke_in_other now by_ (id stored) rs Ha).
    unfold active. simpl. rewrite Hact. simpl.
    destruct (String.eqb (userId stored) owner); simpl; lia.
  - destruct Hin as [Hin|Hin]; [congruence|].
    simpl. destruct (String.eqb_spec (id a) (id stored)); [contradiction|].
    specialize (IH Hrs Hin Hact). fold (revoke_in now by_ (id stored) rs).
    destruct (String.eqb (userId a) owner && active a); simpl; lia.
Qed.



(** A logout ends exactly one session.  On a table that satisfies its
    constraints, the logout of a secret that the lookup finds takes one
    active record from the owner of that record and none from any other
    user. *)
Theorem logout_ends_exactly_one_session
    (Profile : Type) (env : Env Profile)
    (token : string) (w : World) (stored : RefreshToken) (owner : string) :
  well_formed (refresh_tokens w) ->
  fst (AuthRepository.findRefreshTokenByToken env token w) = Ok (Some stored) ->
  (List.length (active_of owner (refresh_tokens (snd (AuthService.logout env token w))))
   + (if String.eqb (userId stored) owner then 1 else 0))%nat
  = List.length (active_of owner (refresh_tokens w)).
Proof.
  intros [Hi _] Hfound.
  destruct (found_is_active Profile env token w stored Hfound) as (Hin & _ & Hact).
  rewrite (logout_found Profile env token w stored Hfound). cbn [snd refresh_tokens].
  apply revoke_in_takes_one; assumption.
Qed.

(** Ann's only session ends with her logout. *)
Lemma logout_ends_exactly_one_session_witness :
  (List.length
     (active_of "u-ann"
        (refresh_tokens (snd (AuthService.logout Demo.env "secret" Demo.logged_in))))
   + 1)%nat
  = List.length (active_of "u-ann" (refresh_tokens Demo.logged_in)).
Proof.
  apply (logout_ends_exactly_one_session unit Demo.env "secret" Demo.logged_in
           (mkRefreshToken "id" "u-ann" "#secret" 604800000 None None 1000
                           (Some "curl/8") (Some "10.0.0.7")) "u-ann").
  - split; vm_compute; repeat constructor; simpl; intuition discriminate.
  - vm_compute. reflexivity.
Defined.

(** ** The e-mail pattern *)

Lemma append_nil_r (s : string) : (s ++ EmptyString)%string = s.
Proof. induction s as [|c s IH]; simpl; [reflexivity | rewrite IH; reflexivity]. Qed.

Lemma append_assoc (s t u : string) : ((s ++ t) ++ u)%string = (s ++ (t ++ u))%string.
Proof. induction s as [|c s IH]; simpl; [reflexivity | rewrite IH; reflexivity]. Qed.

Lemma append_eq_nil (s t : string) :
  (s ++ t)%string = EmptyString -> s = EmptyString /\ t = EmptyString.
Proof. destruct s; simpl; [auto | discriminate]. Qed.

Lemma matches_nullable (r : Regex) (u : string) :
  matches r u -> u = EmptyString -> nullable r = true.
Proof.
  induction 1 as [ | p c Hp | a b s t Ha IHa Hb IHb | a b s Ha IHa | a b s Hb IHb
                 | a | a s t Ha IHa Hs IHs ]; intros E; simpl; try reflexivity.
  - discriminate E.
  - apply append_eq_nil in E. destruct E as [Es Et]. rewrite (IHa Es), (IHb Et). reflexivity.
  - rewrite (IHa E). reflexivity.
  - rewrite (IHb E). apply orb_true_r.
Qed.

Lemma nullable_matches (r : Regex) : nullable r = true -> matches r EmptyString.
Proof.
  induction r as [ | | p | a IHa b IHb | a IHa b IHb | a IHa ]; simpl; intros H;
    try discriminate H.
  - constructor.
  - apply andb_true_iff in H. destruct H as [Ha Hb].
    change EmptyString with (EmptyString ++ EmptyString)%string.
    constructor; auto.
  - apply orb_true_iff in H. destruct H as [H|H];
      [apply matches_Alt_l | apply matches_Alt_r]; auto.
  - constructor.
Qed.

(** [after c r] denotes the strings [s] such that [r] denotes [c] followed by
    [s]. *)
Lemma after_sound (r : Regex) :
  forall (c : ascii) (s : string), matches (after c r) s -> matches r (String c s).
Proof.
  induction r as [ | | p | a IHa b IHb | a IHa b IHb | a IHa ]; simpl; intros c s H.
  - inversion H.
  - inversion H.
  - destruct (p c) eqn:Hp; inversion H; subst. constructor. exact Hp.
  - assert (Hcat : forall u, matches (Cat (after c a) b) u -> matches (Cat a b) (String c u)).
    { intros u Hu. inversion Hu as [ | | ? ? s1 s2 H1 H2 | | | | ]; subst.
      change (String c (s1 ++ s2)) with (String c s1 ++ s2)%string.
      constructor; [apply IHa; exact H1 | exact H2]. }
    destruct (nullable a) eqn:Hn.
    + inversion H as [ | | | ? ? ? H1 | ? ? ? H1 | | ]; subst.
      * apply Hcat. exact H1.
      * change (String c s) with (EmptyString ++ String c s)%string.
        constructor; [apply nullable_matches; exact Hn | apply IHb; exact H1].
    + apply Hcat. exact H.
  - inversion H as [ | | | ? ? ? H1 | ? ? ? H1 | | ]; subst;
      [apply matches_Alt_l; apply IHa | apply matches_Alt_r; apply IHb]; exact H1.
  - inversion H as [ | | ? ? s1 s2 H1 H2 | | | | ]; subst.
    change (String c (s1 ++ s2)) with (String c s1 ++ s2)%string.
    apply matches_Star_more; [apply IHa; exact H1 | exact H2].
Qed.

Lemma after_complete (r : Regex) (u : string) :
  matches r u -> forall (c : ascii) (s : string), u = String c s -> matches (after c r) s.
Proof.
  induction 1 as [ | p c0 Hp | a b s1 t Ha IHa Hb IHb | a b s1 Ha IHa | a b s1 Hb IHb
                 | a | a s1 t Ha IHa Hs IHs ]; intros c s E; simpl.
  - discriminate E.
  - injection E as E1 E2. subst. rewrite Hp. constructor.
  - destruct s1 as [|c1 s1'].
    + simpl in E. rewrite (matches_nullable a EmptyString Ha eq_refl).
      apply matches_Alt_r. apply IHb. exact E.
    + simpl in E. injection E as E1 E2. subst.
      assert (Hcat : matches (Cat (after c a) b) (s1' ++ t)).
      { constructor; [apply IHa; reflexivity | exact Hb]. }
      destruct (nullable a); [apply matches_Alt_l|]; exact Hcat.
  - apply matches_Alt_l. apply IHa. exact E.
  - apply matches_Alt_r. apply IHb. exact E.
  - discriminate E.
  - destruct s1 as [|c1 s1'].
    + simpl in E. apply (IHs c s E).
    + simpl in E. injection E as E1 E2. subst.
      constructor; [apply IHa; reflexivity | exact Hs].
Qed.

(** The matcher decides the denotation. *)
Lemma test_matches (s : string) : forall r, test r s = true <-> matches r s.
Proof.
  induction s as [|c s IH]; intros r; simpl.
  - split; [apply nullable_matches | intros H; exact (matches_nullable r _ H eq_refl)].
  - rewrite IH. split; [apply after_sound | intros H; exact (after_complete r _ H c s eq_refl)].
Qed.

Lemma matches_Star_Class (p : ascii -> bool) (s : string) :
  matches (Star (Class p)) s <-> all_chars p s = true.
Proof.
  split.
  - intros H. remember (Star (Class p)) as r eqn:Er.
    induction H as [ | | | | | a | a s1 t Ha _ Hs IHs ]; try discriminate Er.
    + reflexivity.
    + injection Er as Er. subst a.
      inversion Ha; subst. simpl. rewrite (IHs eq_refl).
      match goal with Hp : p _ = true |- _ => rewrite Hp end. reflexivity.
  - induction s as [|c s IH]; simpl; intros H; [constructor|].
    apply andb_true_iff in H. destruct H as [Hc Hs].
    change (String c s) with (String c EmptyString ++ s)%string.
    apply matches_Star_more; [constructor; exact Hc | apply IH; exact Hs].
Qed.

Lemma matches_Plus_Class (p : ascii -> bool) (s : string) :
  matches (Plus (Class p)) s <-> s <> EmptyString /\ all_chars p s = true.
Proof.
  unfold Plus. split.
  - intros H. inversion H as [ | | ? ? s1 s2 H1 H2 | | | | ]; subst.
    inversion H1; subst. simpl. split; [discriminate|].
    apply matches_Star_Class in H2. rewrite H2.
    match goal with Hp : p _ = true |- _ => rewrite Hp end. reflexivity.
  - intros [Hne H]. destruct s as [|c s]; [contradiction|]. simpl in H.
    apply andb_true_iff in H. destruct H as [Hc Hs].
    change (String c s) with (String c EmptyString ++ s)%string.
    constructor; [constructor; exact Hc | apply matches_Star_Class; exact Hs].
Qed.

Lemma matches_char (c : ascii) (s : string) :
  matches (Class (Ascii.eqb c)) s <-> s = String c EmptyString.
Proof.
  split.
  - intros H. inversion H as [ | ? c' Hc | | | | | ]; subst.
    apply Ascii.eqb_eq in Hc. subst. reflexivity.
  - intros E. subst. constructor. apply Ascii.eqb_refl.
Qed.

(** The login handler's pattern accepts exactly the strings made of a
    non-empty run of characters other than white space and [@], then [@],
    then such a run, then a dot, then such a run.  The runs may themselves
    contain dots. *)
Theorem emailRegex_accepts_exactly_local_at_domain_dot_tld (email : string) :
  test emailRegex email = true <->
  exists local domain tld,
    email = (local ++ "@" ++ domain ++ "." ++ tld)%string
    /\ word local /\ word domain /\ word tld.
Proof.
  rewrite test_matches. unfold emailRegex, word. split.
  - intros H.
    inversion H as [ | | ? ? l r1 Hl H1 | | | | ]; subst.
    inversion H1 as [ | | ? ? at_ r2 Hat H2 | | | | ]; subst.
    inversion H2 as [ | | ? ? d r3 Hd H3 | | | | ]; subst.
    inversion H3 as [ | | ? ? dot t Hdot Ht | | | | ]; subst.
    apply matches_char in Hat. apply matches_char in Hdot. subst.
    apply matches_Plus_Class in Hl. apply matches_Plus_Class in Hd.
    apply matches_Plus_Class in Ht.
    exists l, d, t. split; [reflexivity | auto].
  - intros (l & d & t & E & Hl & Hd & Ht). subst.
    constructor; [apply matches_Plus_Class; exact Hl|].
    constructor; [apply matches_char; reflexivity|].
    constructor; [apply matches_Plus_Class; exact Hd|].
    constructor; [apply matches_char; reflexivity|].
    apply matches_Plus_Class. exact Ht.
Qed.

(** ** The login handler *)

Lemma emailRegex_shape (email : string) :
  test emailRegex email = true ->
  exists local domain tld,
    email = (local ++ "@" ++ domain ++ "." ++ tld)%string
    /\ word local /\ word domain /\ word tld.
Proof.
  rewrite test_matches. unfold emailRegex, word. intros H.
  inversion H as [ | | ? ? l r1 Hl H1 | | | | ]; subst.
  inversion H1 as [ | | ? ? at_ r2 Hat H2 | | | | ]; subst.
  inversion H2 as [ | | ? ? d r3 Hd H3 | | | | ]; subst.
  inversion H3 as [ | | ? ? dot t Hdot Ht | | | | ]; subst.
  apply matches_char in Hat. apply matches_char in Hdot. subst.
  apply matches_Plus_Class in Hl. apply matches_Plus_Class in Hd.
  apply matches_Plus_Class in Ht.
  exists l, d, t. split; [reflexivity | auto].
Qed.

(** The login handler validates before it does anything else.  Either it
    refuses the request with status 400 and the world is exactly as before
    (no credential check, nothing drawn, nothing written), or the e-mail
    address and the password were both present and non-empty, the address has
    the shape local, [@], domain, dot, tld described by the pattern, and the
    reply and the world are those of [AuthService.login], called with the
    address, the password, the user agent of the request and [req.ip], or the
    socket's address when [req.ip] is missing or empty. *)
Theorem login_handler_validates_before_it_acts
    (Profile : Type) (env : Env Profile)
    (email password user_agent ip remoteAddress : option string)
    (w w' : World) (reply : Reply (Session Profile)) :
  LoginHandler.login env email password user_agent ip remoteAddress w = (reply, w') ->
  (w' = w /\ exists message code, reply = Refused message 400 code)
  \/ (exists e p local domain tld,
        email = Some e /\ password = Some p /\ p <> EmptyString
        /\ e = (local ++ "@" ++ domain ++ "." ++ tld)%string
        /\ word local /\ word domain /\ word tld
        /\ match AuthService.login env e p user_agent
                   (if truthy ip then ip else remoteAddress) w with
           | (Ok s, w1) => reply = Served s /\ w' = w1
           | (Throw x, w1) => reply = Raised x /\ w' = w1
           end).
Proof.
  unfold LoginHandler.login.
  destruct email as [e|]; destruct password as [p|]; simpl;
    try (destruct (String.eqb e EmptyString); simpl);
    try (intros E; inversion E; subst; left; split; [reflexivity|]; eexists; eexists;
         reflexivity).
  destruct (String.eqb_spec p EmptyString) as [Ep|Ep]; simpl.
  { intros E; inversion E; subst; left; split; [reflexivity|]; eexists; eexists;
      reflexivity. }
  destruct (test emailRegex e) eqn:Ht; cbn [negb].
  2:{ intros E; inversion E; subst; left; split; [reflexivity|]; eexists; eexists;
        reflexivity. }
  apply emailRegex_shape in Ht. destruct Ht as (l & d & t & Ee & Hl & Hd & Hw).
  intros E. right. exists e, p, l, d, t.
  repeat (split; [assumption || reflexivity|]).
  destruct (AuthService.login env e p user_agent (if truthy ip then ip else remoteAddress) w)
    as [[s|x] w1]; inversion E; subst; split; reflexivity.
Qed.

(** Ann's login request passes the validation and is served. *)
Lemma login_handler_witness :
  exists s w',
    LoginHandler.login Demo.env (Some "ann@example.org") (Some "pw") None None
                       (Some "10.0.0.7") Demo.empty = (Served s, w').
Proof.
  destruct (login_handler_validates_before_it_acts unit Demo.env
              (Some "ann@example.org") (Some "pw") None None (Some "10.0.0.7")
              Demo.empty _ _
              (surjective_pairing
                 (LoginHandler.login Demo.env (Some "ann@example.org") (Some "pw")
                                     None None (Some "10.0.0.7") Demo.empty)))
    as [[_ (m & c & F)] | _].
  - vm_compute in F. discriminate F.
  - eexists. eexists. vm_compute. reflexivity.
Defined.

(** ** Rotation links *)

Lemma links_forward_snoc (rs : list RefreshToken) (a : RefreshToken) :
  links_forward rs -> replacedByToken a = None -> links_forward (rs ++ [a]).
Proof.
  induction rs as [|r rs IH]; simpl; intros H Ha.
  - split; [intros i E; congruence | exact I].
  - destruct H as [Hr Hrs]. split; [|apply IH; assumption].
    intros i E. rewrite map_app. apply in_or_app. left. apply Hr. exact E.
Qed.

(** Rewriting rows in place keeps the links forward when ids stay and a link
    is either kept or cleared. *)
Lemma links_forward_map (g : RefreshToken -> RefreshToken) (rs : list RefreshToken) :
  (forall r, id (g r) = id r) ->
  (forall r, replacedByToken (g r) = replacedByToken r \/ replacedByToken (g r) = None) ->
  links_forward rs -> links_forward (map g rs).
Proof.
  intros Hid Hlink. induction rs as [|r rs IH]; simpl; [auto|].
  intros [Hr Hrs]. split; [|apply IH; exact Hrs].
  intros i E. rewrite map_map.
  rewrite (map_ext (fun x => id (g x)) id Hid).
  destruct (Hlink r) as [K|K]; rewrite K in E; [apply Hr; exact E | discriminate E].
Qed.

(** Revoking rows in favour of a row appended at the end keeps the links
    forward. *)
Lemma links_forward_rotate (now : Date) (tokenId : string) (rs : list RefreshToken)
    (a : RefreshToken) (by_ : option string) :
  (by_ = None \/ by_ = Some (id a)) ->
  replacedByToken a = None ->
  links_forward rs ->
  links_forward (revoke_in now by_ tokenId rs ++ [a]).
Proof.
  intros Hby Ha. induction rs as [|r rs IH]; simpl.
  - intros _. split; [intros i E; congruence | exact I].
  - intros [Hr Hrs]. split; [|apply IH; exact Hrs].
    intros i E. rewrite map_app. apply in_or_app.
    fold (revoke_in now by_ tokenId rs). rewrite revoke_in_ids.
    destruct (String.eqb (id r) tokenId).
    + simpl in E. destruct Hby as [K|K]; rewrite K in E; [discriminate E|].
      injection E as E. right. left. exact E.
    + left. apply Hr. exact E.
Qed.

Section Links.

Variable Profile : Type.
Variable env : Env Profile.

Lemma or_null_Some_cases (s : string) :
  or_null (Some s) = None \/ or_null (Some s) = Some s.
Proof.
  unfold or_null, truthy. destruct (String.eqb s EmptyString); [left | right]; reflexivity.
Qed.

Lemma handle_keeps_links_forward (q : Request) (w : World) :
  q <> Cleanup ->
  links_forward (refresh_tokens w) ->
  links_forward (refresh_tokens (handle env q w)).
Proof.
  intros Hq Hl. destruct q as [email password ua ip | cookie ua ip | cookie | | owner];
    cbn [handle].
  - destruct (loginQuery env email password) as [e|[usr prof]] eqn:Hlq.
    + unfold AuthService.login, AuthRepository.login, bind, throw. rewrite Hlq. exact Hl.
    + rewrite (login_run Profile env email password ua ip w usr prof Hlq). cbv zeta.
      destruct (violation _ _); cbn [snd refresh_tokens]; [exact Hl|].
      apply links_forward_snoc; [exact Hl | reflexivity].
  - destruct (refresh_handler_cases Profile env cookie ua ip w)
      as [E | (token & _ & _ & E)]; rewrite E; [exact Hl|].
    destruct (AuthService.refreshTokens env token ua ip w) as [[s|e] w'] eqn:H;
      cbn [snd].
    + destruct (refreshTokens_Ok_inv Profile env token ua ip w w' s H)
        as (stored & _ & _ & _ & _ & _ & _ & Hrows & _).
      rewrite Hrows. apply links_forward_rotate; [|reflexivity|exact Hl].
      apply or_null_Some_cases.
    + destruct (refreshTokens_Throw_inv Profile env token ua ip w w' e H) as [Hr _].
      rewrite Hr. exact Hl.
  - destruct (logout_handler_cases Profile env cookie w)
      as [E | (token & _ & _ & E)]; rewrite E; [exact Hl|].
    destruct (find_cases Profile env token w) as [H | [stored H]].
    + rewrite (logout_not_found Profile env token w H). exact Hl.
    + rewrite (logout_found Profile env token w stored H). cbn [snd refresh_tokens].
      unfold revoke_in. apply links_forward_map; [| |exact Hl].
      * intros r. destruct (holds _ r); reflexivity.
      * intros r. destruct (holds _ r); [right | left]; reflexivity.
  - contradiction.
  - rewrite mass_revocation_rows. cbn [snd refresh_tokens].
    apply links_forward_map; [| |exact Hl].
    + intros r. destruct (holds _ r); reflexivity.
    + intros r. left. destruct (holds _ r); reflexivity.
Qed.

Lemma handle_all_keeps_links_forward (qs : list Request) (w : World) :
  ~ In Cleanup qs ->
  links_forward (refresh_tokens w) ->
  links_forward (refresh_tokens (handle_all env qs w)).
Proof.
  revert w. induction qs as [|q qs IH]; intros w Hq Hl; [exact Hl|].
  apply (IH (handle env q w)).
  - intros F. apply Hq. right. exact F.
  - apply handle_keeps_links_forward; [|exact Hl].
    intros E. apply Hq. left. exact E.
Qed.

End Links.

(** Rotation links point forward.  Starting from an empty table, after any
    traffic without clean-up, every [replacedByToken] that is set names the id
    of a record further down the table, that is, of a record inserted later:
    the links never dangle and never form a cycle. *)
Theorem rotation_links_point_to_later_records
    (Profile : Type) (env : Env Profile) (qs : list Request) (w : World) :
  refresh_tokens w = [] ->
  ~ In Cleanup qs ->
  links_forward (refresh_tokens (handle_all env qs w)).
Proof.
  intros Hempty Hq. apply handle_all_keeps_links_forward; [exact Hq|].
  rewrite Hempty. exact I.
Qed.

(** Ann logs in, rotates twice and logs out. *)
Lemma rotation_links_witness :
  links_forward
    (refresh_tokens
       (handle_all Demo.env
          [POST_login "ann@example.org" "pw" None None;
           POST_refresh (Some "secret") None None;
           POST_refresh (Some "secretI") None None;
           POST_logout (Some "secretII")] Demo.empty)).
Proof.
  apply (rotation_links_point_to_later_records unit Demo.env).
  - reflexivity.
  - intros [F|[F|[F|[F|[]]]]]; discriminate F.
Defined.

(** ** The access token *)


